(** * pixels: the Reach action-label extractor and the Experiment aggregator

    A shallow embedding of [pixels/behaviours/reach.py] and
    [pixels/experiment.py].  Python exceptions are values of [exn] carried by
    the [result] monad; a pandas DataFrame is a row count with a finite map
    from column keys to columns; numpy index arrays are lists of naturals. *)

From Stdlib Require Import ZArith Floats.
From stdpp Require Import base option list gmap strings pretty.

Local Open Scope Z_scope.

(** ** Exceptions *)

Inductive exn : Type :=
  | KeyError (key : string)
  | IndexError
  | ValueError (msg : string)
  | AttributeError (attr : string)
  | NameError (name : string)
  | TypeError (msg : string)
  | PixelsError (msg : string).

Inductive result (A : Type) : Type :=
  | Ok (a : A)
  | Raise (e : exn).
Arguments Ok {A} a.
Arguments Raise {A} e.

#[global] Instance result_ret : MRet result := λ A a, Ok a.
#[global] Instance result_bind : MBind result := λ A B f m,
  match m with
  | Ok a => f a
  | Raise e => Raise e
  end.

(** [try: m except KeyError: h] *)
Definition try_except_KeyError {A} (m h : result A) : result A :=
  match m with
  | Raise (KeyError _) => h
  | r => r
  end.

(** The loop [for i, x in enumerate(l): acc = body(acc, i, x)], stopping at the
    first exception. *)
Fixpoint for_enumerate {A St} (body : St → nat → A → result St)
    (i : nat) (l : list A) (acc : St) : result St :=
  match l with
  | [] => Ok acc
  | x :: l' => acc' ← body acc i x; for_enumerate body (S i) l' acc'
  end.

(** The loop [for x in l: acc = body(acc, x)]. *)
Fixpoint for_in {A St} (body : St → A → result St) (l : list A) (acc : St) : result St :=
  match l with
  | [] => Ok acc
  | x :: l' => acc' ← body acc x; for_in body l' acc'
  end.

(** ** pandas *)

Record DataFrame (A : Type) : Type := mkDataFrame {
  index_len : nat;
  columns : gmap string (list A)
}.
Arguments mkDataFrame {A} _ _.
Arguments index_len {A} _.
Arguments columns {A} _.

(** Every column has one entry per row of the index. *)
Definition df_wf {A} (df : DataFrame A) : Prop :=
  map_Forall (λ _ c, length c = index_len df) (columns df).

(** [df[key]] *)
Definition df_getitem {A} (df : DataFrame A) (key : string) : result (list A) :=
  match columns df !! key with
  | Some c => Ok c
  | None => Raise (KeyError key)
  end.

(** [df[key] = series] *)
Definition df_setitem {A} (df : DataFrame A) (key : string) (c : list A) : DataFrame A :=
  mkDataFrame (index_len df) (<[key := c]> (columns df)).

(** [Series.min()]: NaN entries are skipped, and the minimum of no entries is
    NaN. *)
Definition nanmin (a b : float) : float :=
  if PrimFloat.is_nan a then b
  else if PrimFloat.is_nan b then a
  else if PrimFloat.ltb b a then b else a.

Definition series_min (s : list float) : float := fold_left nanmin s PrimFloat.nan.

(** [a + k * b] on two columns of one table (same index). *)
Definition series_add_scaled (a : list float) (k : float) (b : list float) : list float :=
  zip_with (λ x y, PrimFloat.add x (PrimFloat.mul k y)) a b.

(** ** numpy

    [np.zeros] makes an array of floats and the codes written to it are small
    integers; the entries are modelled as integers. *)

Abbreviation ndarray := (list (list Z)).

(** [np.zeros((n, m))] *)
Definition np_zeros (n m : nat) : ndarray := replicate n (replicate m 0).

(** [arr[i, c]] *)
Definition np_get (arr : ndarray) (i c : nat) : option Z :=
  row ← arr !! i; row !! c.

(** [arr[i, c] = v] with a non-negative index. *)
Definition np_set (arr : ndarray) (i c : nat) (v : Z) : result ndarray :=
  match arr !! i with
  | None => Raise IndexError
  | Some row =>
      if bool_decide (c < length row)%nat
      then Ok (<[i := <[c := v]> row]> arr)
      else Raise IndexError
  end.

(** [arr[idx, c] = v] for an index array [idx]. *)
Fixpoint np_set_many (arr : ndarray) (idx : list nat) (c : nat) (v : Z) : result ndarray :=
  match idx with
  | [] => Ok arr
  | i :: idx' => arr' ← np_set arr i c v; np_set_many arr' idx' c v
  end.

(** [np.where(mask)[0]] *)
Fixpoint np_where_from (i : nat) (mask : list bool) : list nat :=
  match mask with
  | [] => []
  | b :: mask' =>
      if b then i :: np_where_from (S i) mask' else np_where_from (S i) mask'
  end.
Definition np_where (mask : list bool) : list nat := np_where_from 0 mask.

(** [a[:-1]] and [a[1:]] *)
Definition init_slice {A} (a : list A) : list A := take (length a - 1) a.
Definition tail_slice {A} (a : list A) : list A := drop 1 a.

(** [(a == x) & (b == y)] elementwise. *)
Definition eq_and_eq (a : list Z) (x : Z) (b : list Z) (y : Z) : list bool :=
  zip_with andb ((λ v, Z.eqb v x) <$> a) ((λ v, Z.eqb v y) <$> b).

(** [a - b] on one-dimensional integer arrays, with numpy's broadcasting: equal
    lengths subtract elementwise, a length-1 operand is stretched, and any
    other pair of shapes is a [ValueError]. *)
Definition np_sub (a b : list nat) : result (list Z) :=
  if bool_decide (length a = length b)
  then Ok (zip_with (λ x y, Z.of_nat x - Z.of_nat y) a b)
  else match a, b with
       | [x], _ => Ok ((λ y, Z.of_nat x - Z.of_nat y) <$> b)
       | _, [y] => Ok ((λ x, Z.of_nat x - Z.of_nat y) <$> a)
       | _, _ => Raise (ValueError "operands could not be broadcast together")
       end.

(** What the method hands to [np.argsort]: the integer array of the durations
    seen in the trace (line 93), or the list of the numbers that the
    metadata's trials carry (line 94). *)
Inductive json_number : Type :=
  | JInt (z : Z)
  | JFloat (f : float).

Inductive array_like : Type :=
  | int_array (a : list Z)
  | number_list (l : list json_number).

Definition array_len (a : array_like) : nat :=
  match a with
  | int_array a => length a
  | number_list l => length l
  end.

(** [np.argsort] with numpy's default sort.  It returns the indices that sort
    the values, a rearrangement of [0 .. len - 1].  Which of two equal values
    comes first (the default sort is not stable), and how the numbers of a list
    compare once numpy has converted them to an array, is numpy's business:
    the method is modelled for every function that returns such a
    rearrangement. *)
Record Argsort : Type := mkArgsort {
  argsort_of :> array_like → list nat;
  argsort_perm : ∀ a, argsort_of a ≡ₚ seq 0 (array_len a)
}.

(** [np.array_equal] on index arrays. *)
Definition np_array_equal (a b : list nat) : bool := bool_decide (a = b).

(** ** reach.py *)

Module ActionLabels.
Definition miss_left : Z := Z.shiftl 1 0.
Definition miss_right : Z := Z.shiftl 1 1.
Definition correct_left : Z := Z.shiftl 1 2.
Definition correct_right : Z := Z.shiftl 1 3.
Definition incorrect_left : Z := Z.shiftl 1 4.
Definition incorrect_right : Z := Z.shiftl 1 5.

Definition naive_left_short : Z := Z.shiftl 1 6.
Definition naive_left_long : Z := Z.shiftl 1 7.
Definition naive_right_short : Z := Z.shiftl 1 8.
Definition naive_right_long : Z := Z.shiftl 1 9.
Definition naive_left : Z := Z.lor naive_left_short naive_left_long.
Definition naive_right : Z := Z.lor naive_right_short naive_right_long.
Definition naive_short : Z := Z.lor naive_left_short naive_right_short.
Definition naive_long : Z := Z.lor naive_left_long naive_right_long.

(** The class namespace, as [getattr] sees it. *)
Definition namespace : list (string * Z) :=
  [ ("miss_left", miss_left); ("miss_right", miss_right);
    ("correct_left", correct_left); ("correct_right", correct_right);
    ("incorrect_left", incorrect_left); ("incorrect_right", incorrect_right);
    ("naive_left_short", naive_left_short); ("naive_left_long", naive_left_long);
    ("naive_right_short", naive_right_short); ("naive_right_long", naive_right_long);
    ("naive_left", naive_left); ("naive_right", naive_right);
    ("naive_short", naive_short); ("naive_long", naive_long) ].

Definition attrs : gmap string Z := list_to_map namespace.
End ActionLabels.

Module Events.
Definition led_on : Z := 1.
Definition led_off : Z := 2.
End Events.

(** [getattr(ActionLabels, attr)] *)
Definition getattr_ActionLabels (attr : string) : result Z :=
  match ActionLabels.attrs !! attr with
  | Some v => Ok v
  | None => Raise (AttributeError attr)
  end.

(** Modelled from the spec: [reach.session]'s [Targets] and [Outcomes] are
    imported from another package; a trial's spout is a side and its outcome a
    category, and these are the members the module names. *)
Inductive Targets : Type := LEFT | RIGHT.
Inductive Outcomes : Type := MISSED | CORRECT | INCORRECT.

Definition _side_map (t : Targets) : string :=
  match t with
  | LEFT => "left"
  | RIGHT => "right"
  end.

Definition _action_map (o : Outcomes) : string :=
  match o with
  | MISSED => "miss"
  | CORRECT => "correct"
  | INCORRECT => "incorrect"
  end.

(** One entry of [metadata["trials"]]. *)
Record trial : Type := mkTrial {
  spout : Targets;
  outcome : Outcomes;
  cue_duration : json_number
}.

(** What the method reads of [self]. *)
Record Reach : Type := mkReach {
  name : string;
  metadata_trials : list trial
}.

Definition LED_key : string := "/'ReachLEDs'/'0'".
Definition sync_key : string := "/'NpxlSync_Signal'/'0'".
Definition back_sensor_key : string := "/'Back_Sensor'/'0'".

Definition trial_count_msg (self : Reach) : string :=
  name self +:+ ": Mantis and Raspberry Pi behavioural data have different no. of trials".
Definition trial_data_msg (self : Reach) : string :=
  name self +:+ ": Mantis and Raspberry Pi behavioural data have mismatching trial data.".

(** Lines 66-68: the correction of the LED channel by the sync channel.  Both
    lookups of the LED key are those of the source; the first one comes before
    any fallback. *)
Definition correct_led (behavioural_data : DataFrame float) : result (DataFrame float) :=
  led ← df_getitem behavioural_data LED_key;
  if PrimFloat.ltb (series_min led) (-2)%float then
    led ← df_getitem behavioural_data LED_key;
    sync ← df_getitem behavioural_data sync_key;
    Ok (df_setitem behavioural_data LED_key (series_add_scaled led 0.5%float sync))
  else Ok behavioural_data.

(** Lines 73-77: the LED channel of the binarised table, or the older key. *)
Definition read_cue_leds (behavioural_data : DataFrame Z) : result (list Z) :=
  try_except_KeyError
    (df_getitem behavioural_data LED_key)
    (df_getitem behavioural_data back_sensor_key).

(** Lines 79-80. *)
Definition led_onsets_of (cue_leds : list Z) : list nat :=
  np_where (eq_and_eq (init_slice cue_leds) 0 (tail_slice cue_leds) 1).
Definition led_offsets_of (cue_leds : list Z) : list nat :=
  np_where (eq_and_eq (init_slice cue_leds) 1 (tail_slice cue_leds) 0).

(** Line 103: the action code of a trial. *)
Definition action_code (t : trial) : result Z :=
  let side := _side_map (spout t) in
  let action := _action_map (outcome t) in
  getattr_ActionLabels (action +:+ "_" +:+ side).

(** Lines 100-103: the body of the loop over the trials. *)
Definition stamp_action (led_onsets : list nat) (action_labels : ndarray)
    (i : nat) (trial : trial) : result ndarray :=
  match led_onsets !! i with
  | None => Raise IndexError
  | Some onset => code ← action_code trial; np_set action_labels onset 0 code
  end.

Section Reach.
(** [signal.binarise] lives in another module of the package: it turns the raw
    table into a table of binary series. *)
Variable binarise : DataFrame float → DataFrame Z.

(** [np.argsort] belongs to numpy: any function that returns a rearrangement
    of the index range. *)
Variable np_argsort : Argsort.

(** Lines 70-116, on the corrected table. *)
Definition label_events (self : Reach) (corrected : DataFrame float) (plot : bool)
    : result ndarray :=
  let behavioural_data := binarise corrected in
  let action_labels := np_zeros (index_len behavioural_data) 2 in
  cue_leds ← read_cue_leds behavioural_data;
  let led_onsets := led_onsets_of cue_leds in
  let led_offsets := led_offsets_of cue_leds in
  action_labels ← np_set_many action_labels led_onsets 1 Events.led_on;
  action_labels ← np_set_many action_labels led_offsets 1 Events.led_off;
  if negb (bool_decide (length led_onsets = length (metadata_trials self))) then
    Raise (PixelsError (trial_count_msg self))
  else
  cue_durations_tdms ← np_sub led_offsets led_onsets;
  let cue_durations_json := cue_duration <$> metadata_trials self in
  let ranked_tdms := np_argsort (int_array cue_durations_tdms) in
  let ranked_json := np_argsort (number_list cue_durations_json) in
  if negb (np_array_equal ranked_tdms ranked_json) then
    Raise (PixelsError (trial_data_msg self))
  else
  action_labels ←
    for_enumerate (stamp_action led_onsets) 0%nat (metadata_trials self) action_labels;
  if plot then Raise (NameError "back_sensor_signal")
  else Ok action_labels.

Definition _extract_action_labels (self : Reach) (behavioural_data : DataFrame float)
    (plot : bool) : result ndarray :=
  corrected ← correct_led behavioural_data;
  label_events self corrected plot.
End Reach.

(** * experiment.py *)

(** [l[index]] on a Python list: a negative index counts from the end. *)
Definition list_getitem {A} (l : list A) (index : Z) : result A :=
  let n := Z.of_nat (length l) in
  let i := if index <? 0 then index + n else index in
  if (0 <=? i) && (i <? n) then
    match l !! Z.to_nat i with
    | Some x => Ok x
    | None => Raise IndexError
    end
  else Raise IndexError.

(** The truth value of an optional string and of an optional list: [None] and
    the empty value are false. *)
Definition truthy_str (s : option string) : bool :=
  match s with
  | Some s => negb (String.eqb s "")
  | None => false
  end.

Definition truthy_list {A} (l : option (list A)) : bool :=
  match l with
  | Some (_ :: _) => true
  | _ => false
  end.

(** [units[i]] for the [units] argument of the batch methods. *)
Definition units_getitem {A} (units : option (list A)) (i : nat) : result A :=
  match units with
  | Some l => list_getitem l (Z.of_nat i)
  | None => Raise (TypeError "'NoneType' object is not subscriptable")
  end.

Section Experiment.
(** pathlib and the file system, [ioutils.get_sessions] and the session objects
    with their methods are defined elsewhere; they are parameters here, and the
    calls into them may raise. *)
Context {Path Metadata Session Args Units Table : Type}.

Variable mkPath : string → Path.
Variable path_exists : Path → bool.
Variable joinpath : Path → string → Path.

Record session_info : Type := mkInfo {
  info_name : string;
  info_metadata : Metadata;
  info_data_dir : Path
}.

Variable get_sessions : list string → Path → option Path → result (list session_info).

Variable session_align_trials : Session → Args → option Units → result Table.
Variable session_get_spike_widths : Session → option Units → result Table.
Variable session_get_spike_waveforms : Session → option Units → result Table.
Variable session_get_aligned_spike_rate_CI : Session → Args → option Units → result Table.

(** What pandas does with a non-empty list of tables in
    [pd.concat(objs, axis=1, copy=False, keys=keys, names=names)]: it aligns
    the tables on their row labels, places them side by side, puts the key of
    each table in front of its column labels and names the levels of the
    result, and it raises when the names do not fit the levels.  pandas is
    not part of this package: a parameter here, which may raise. *)
Variable pandas_concat : list Table → list nat → list string → result Table.

(** [pd.concat(objs, axis=1, copy=False, keys=keys, names=names)]: an empty
    list of tables is a [ValueError]. *)
Definition pd_concat (objs : list Table) (keys : list nat) (names : list string)
    : result Table :=
  match objs with
  | [] => Raise (ValueError "No objects to concatenate")
  | _ => pandas_concat objs keys names
  end.

Record Experiment : Type := mkExperiment {
  behaviour : string → Metadata → Path → result Session;
  mouse_ids : list string;
  data_dir : Path;
  meta_dir : option Path;
  raw : Path;
  processed : Path;
  interim : Path;
  sessions : list Session
}.

(** Lines 36-67.  [mouse_ids] is one id or a list of ids. *)
Definition __init__ (mouse_ids : string + list string)
    (behaviour : string → Metadata → Path → result Session)
    (data_dir : string) (meta_dir : option string) : result Experiment :=
  let mouse_ids := match mouse_ids with inl id => [id] | inr ids => ids end in
  let self_data_dir := mkPath data_dir in
  if negb (path_exists self_data_dir) then
    Raise (PixelsError ("Directory not found: " +:+ data_dir))
  else
  self_meta_dir ←
    (if truthy_str meta_dir then
       match meta_dir with
       | Some m =>
           if negb (path_exists (mkPath m)) then
             Raise (PixelsError ("Directory not found: " +:+ m))
           else Ok (Some (mkPath m))
       | None => Ok None
       end
     else Ok None);
  found ← get_sessions mouse_ids self_data_dir self_meta_dir;
  sessions ←
    for_in (λ sessions session,
              obj ← behaviour (info_name session) (info_metadata session)
                      (info_data_dir session);
              Ok (sessions ++ [obj]))
      found [];
  Ok (mkExperiment behaviour mouse_ids self_data_dir self_meta_dir
        (joinpath self_data_dir "raw") (joinpath self_data_dir "processed")
        (joinpath self_data_dir "interim") sessions).

Definition __getitem__ (self : Experiment) (index : Z) : result Session :=
  list_getitem (sessions self) index.

Definition __len__ (self : Experiment) : nat := length (sessions self).

(** The values an attribute of an [Experiment] can have. *)
Inductive attr_value : Type :=
  | AttrClass (c : string → Metadata → Path → result Session)
  | AttrIds (ids : list string)
  | AttrPath (p : Path)
  | AttrOptPath (p : option Path)
  | AttrSessions (l : list Session)
  | AttrMethod (name : string).

Definition Experiment_methods : list string :=
  [ "set_cache"; "process_spikes"; "sort_spikes"; "assess_noise"; "process_lfp";
    "process_behaviour"; "extract_videos"; "process_motion_tracking";
    "draw_motion_index_rois"; "process_motion_index"; "select_units"; "align_trials";
    "get_cluster_info"; "get_spike_widths"; "get_spike_waveforms";
    "get_aligned_spike_rate_CI" ].

(** [self.attr]: the attributes [__init__] sets, then the methods of the
    class; anything else is an [AttributeError]. *)
Definition Experiment_getattr (self : Experiment) (attr : string) : result attr_value :=
  if String.eqb attr "behaviour" then Ok (AttrClass (behaviour self))
  else if String.eqb attr "mouse_ids" then Ok (AttrIds (mouse_ids self))
  else if String.eqb attr "data_dir" then Ok (AttrPath (data_dir self))
  else if String.eqb attr "meta_dir" then Ok (AttrOptPath (meta_dir self))
  else if String.eqb attr "raw" then Ok (AttrPath (raw self))
  else if String.eqb attr "processed" then Ok (AttrPath (processed self))
  else if String.eqb attr "interim" then Ok (AttrPath (interim self))
  else if String.eqb attr "sessions" then Ok (AttrSessions (sessions self))
  else if bool_decide (attr ∈ Experiment_methods) then Ok (AttrMethod attr)
  else Raise (AttributeError attr).

(** What [enumerate] iterates over. *)
Definition iter_sessions (v : attr_value) : result (list Session) :=
  match v with
  | AttrSessions l => Ok l
  | _ => Raise (TypeError "not a list of sessions")
  end.

(** Lines 194-212. *)
Definition align_trials (self : Experiment) (args : Args) (units : option (list Units))
    : result Table :=
  trials ←
    for_enumerate
      (λ trials i session,
         if truthy_list units then
           u ← units_getitem units i;
           t ← session_align_trials session args (Some u);
           Ok (trials ++ [t])
         else
           t ← session_align_trials session args None;
           Ok (trials ++ [t]))
      0%nat (sessions self) [];
  pd_concat trials (seq 0 (length trials)) ["session"; "rec_num"; "unit"; "trial"].

(** Lines 221-238: the loop runs over [self.sessons], drops what the sessions
    return, and [widths] stays empty. *)
Definition get_spike_widths (self : Experiment) (units : option (list Units))
    : result Table :=
  let widths : list Table := [] in
  v ← Experiment_getattr self "sessons";
  sessons ← iter_sessions v;
  _ ← for_enumerate
        (λ (_ : unit) i session,
           if truthy_list units then
             u ← units_getitem units i;
             _ ← session_get_spike_widths session (Some u); Ok ()
           else
             _ ← session_get_spike_widths session None; Ok ())
        0%nat sessons ();
  pd_concat widths (seq 0 (length widths)) ["session"].

(** Lines 240-257. *)
Definition get_spike_waveforms (self : Experiment) (units : option (list Units))
    : result Table :=
  let waveforms : list Table := [] in
  v ← Experiment_getattr self "sessons";
  sessons ← iter_sessions v;
  _ ← for_enumerate
        (λ (_ : unit) i session,
           if truthy_list units then
             u ← units_getitem units i;
             _ ← session_get_spike_waveforms session (Some u); Ok ()
           else
             _ ← session_get_spike_waveforms session None; Ok ())
        0%nat sessons ();
  pd_concat waveforms (seq 0 (length waveforms)) ["session"].

(** Lines 259-277. *)
Definition get_aligned_spike_rate_CI (self : Experiment) (args : Args)
    (units : option (list Units)) : result Table :=
  let CIs : list Table := [] in
  v ← Experiment_getattr self "sessons";
  sessons ← iter_sessions v;
  _ ← for_enumerate
        (λ (_ : unit) i session,
           if truthy_list units then
             u ← units_getitem units i;
             _ ← session_get_aligned_spike_rate_CI session args (Some u); Ok ()
           else
             _ ← session_get_aligned_spike_rate_CI session args None; Ok ())
        0%nat sessons ();
  pd_concat CIs (seq 0 (length CIs)) ["session"].

End Experiment.

(** ** The list-valued methods of [Experiment] *)

Section ExperimentQueries.
(** [select_units] and [get_cluster_info] of a session are defined elsewhere;
    they are parameters here, and may raise. *)
Context {Path Metadata Session Args Units Info : Type}.

Variable session_select_units : Session → Args → result Units.
Variable session_get_cluster_info : Session → result Info.

(** Lines 182-192. *)
Definition select_units (self : @Experiment Path Metadata Session) (args : Args)
    : result (list Units) :=
  for_in (λ units session,
            u ← session_select_units session args;
            Ok (units ++ [u]))
    (sessions self) [].

(** Lines 214-219. *)
Definition get_cluster_info (self : @Experiment Path Metadata Session)
    : result (list Info) :=
  for_in (λ infos s,
            info ← session_get_cluster_info s;
            Ok (infos ++ [info]))
    (sessions self) [].

End ExperimentQueries.

(** ** The batch methods of [Experiment] that work by side effect *)

Section ExperimentBatch.
(** The processing methods of a session act on the files of the session and
    return nothing; they are parameters here: each takes the state of the
    world to a new state and either returns or raises.  What [print] writes
    is kept as the list of the lines written so far. *)
Context {Path Metadata Session World Config : Type}.

Variable session_name : Session → string.
Variable session_set_cache : Session → bool → World → World * result unit.
Variable session_process_spikes : Session → World → World * result unit.
Variable session_sort_spikes : Session → World → World * result unit.
Variable session_assess_noise : Session → World → World * result unit.
Variable session_process_lfp : Session → World → World * result unit.
Variable session_process_behaviour : Session → World → World * result unit.
Variable session_extract_videos : Session → bool → World → World * result unit.
Variable session_process_motion_tracking :
  Session → Config → bool → World → World * result unit.
Variable session_draw_motion_index_rois : Session → nat → World → World * result unit.
Variable session_process_motion_index : Session → World → World * result unit.

Record state : Type := mkState {
  world : World;
  stdout : list string
}.

(** [print(line)] *)
Definition print (line : string) (σ : state) : state * result unit :=
  (mkState (world σ) (stdout σ ++ [line]), Ok ()).

(** A call of a session method. *)
Definition call (f : World → World * result unit) (σ : state) : state * result unit :=
  (mkState (f (world σ)).1 (stdout σ), (f (world σ)).2).

(** [m; k]: [k] runs when [m] returns. *)
Definition and_then (m k : state → state * result unit) (σ : state)
    : state * result unit :=
  match m σ with
  | (σ', Ok _) => k σ'
  | (σ', Raise e) => (σ', Raise e)
  end.

(** [for i, x in enumerate(l): body(i, x)] *)
Fixpoint for_enumerate_do {A} (body : nat → A → state → state * result unit)
    (i : nat) (l : list A) (σ : state) : state * result unit :=
  match l with
  | [] => (σ, Ok ())
  | x :: l' => and_then (body i x) (for_enumerate_do body (S i) l') σ
  end.

(** [">>>>> {what} for session {} ({} / {})".format(name, i, n)] *)
Definition progress_line (what name : string) (i n : nat) : string :=
  ">>>>> " +:+ what +:+ " for session " +:+ name
    +:+ " (" +:+ pretty i +:+ " / " +:+ pretty n +:+ ")".

(** The loop shared by the processing methods: announce the session, then
    call its method. *)
Definition progress_loop (what : string) (method : Session → World → World * result unit)
    (self : @Experiment Path Metadata Session) : state → state * result unit :=
  for_enumerate_do
    (λ i session,
       and_then
         (print (progress_line what (session_name session) (i + 1)
                   (length (sessions self))))
         (call (method session)))
    0%nat (sessions self).

(** Lines 87-89. *)
Definition set_cache (self : @Experiment Path Metadata Session) (on : bool)
    : state → state * result unit :=
  for_enumerate_do (λ _ session, call (session_set_cache session on)) 0%nat (sessions self).

(** Lines 91-98. *)
Definition process_spikes (self : @Experiment Path Metadata Session) :=
  progress_loop "Processing spikes" session_process_spikes self.

(** Lines 100-107. *)
Definition sort_spikes (self : @Experiment Path Metadata Session) :=
  progress_loop "Sorting spikes" session_sort_spikes self.

(** Lines 109-116. *)
Definition assess_noise (self : @Experiment Path Metadata Session) :=
  progress_loop "Assessing noise" session_assess_noise self.

(** Lines 118-125. *)
Definition process_lfp (self : @Experiment Path Metadata Session) :=
  progress_loop "Processing LFP data" session_process_lfp self.

(** Lines 127-134. *)
Definition process_behaviour (self : @Experiment Path Metadata Session) :=
  progress_loop "Processing behaviour" session_process_behaviour self.

(** Lines 136-143. *)
Definition extract_videos (self : @Experiment Path Metadata Session) (force : bool) :=
  progress_loop "Extracting videos" (λ session, session_extract_videos session force) self.

(** Lines 145-153. *)
Definition process_motion_tracking (self : @Experiment Path Metadata Session)
    (config : Config) (create_labelled_video : bool) :=
  progress_loop "Processing motion tracking"
    (λ session, session_process_motion_tracking session config create_labelled_video)
    self.

(** Lines 155-168. *)
Definition draw_motion_index_rois (self : @Experiment Path Metadata Session)
    (num_rois : nat) :=
  progress_loop "Drawing motion index ROIs"
    (λ session, session_draw_motion_index_rois session num_rois) self.

(** Lines 170-180: the regions of every session are drawn first, without a
    progress line. *)
Definition process_motion_index (self : @Experiment Path Metadata Session)
    (num_rois : nat) : state → state * result unit :=
  and_then
    (for_enumerate_do
       (λ _ session, call (session_draw_motion_index_rois session num_rois))
       0%nat (sessions self))
    (progress_loop "Processing motion index" session_process_motion_index self).

End ExperimentBatch.

(** * Vocabulary of the properties *)

Definition has_shape (arr : ndarray) (n m : nat) : Prop :=
  length arr = n ∧ Forall (λ row, length row = m) arr.

(** The bitmask of a trial, read off the class attributes by side and
    outcome. *)
Definition bitmask_of (side : Targets) (o : Outcomes) : Z :=
  match o, side with
  | MISSED, LEFT => ActionLabels.miss_left
  | MISSED, RIGHT => ActionLabels.miss_right
  | CORRECT, LEFT => ActionLabels.correct_left
  | CORRECT, RIGHT => ActionLabels.correct_right
  | INCORRECT, LEFT => ActionLabels.incorrect_left
  | INCORRECT, RIGHT => ActionLabels.incorrect_right
  end.

(** [np.flatnonzero(arr[:, c])]: the rows whose entry in column [c] is not
    zero. *)
Definition np_flatnonzero (arr : ndarray) (c : nat) : list nat :=
  np_where ((λ row, match row !! c with
                    | Some v => negb (Z.eqb v 0)
                    | None => false
                    end) <$> arr).

(** The routine fails with the domain error. *)
Definition raises_PixelsError {A} (r : result A) : Prop :=
  ∃ msg, r = Raise (PixelsError msg).

(** The ranks of the cue durations seen in the trace differ from the ranks of
    the cue durations of the metadata. *)
Definition cue_ranks_differ (binarise : DataFrame float → DataFrame Z)
    (np_argsort : Argsort) (self : Reach)
    (tbl : DataFrame float) : Prop :=
  ∃ t' cue d,
    correct_led tbl = Ok t' ∧ read_cue_leds (binarise t') = Ok cue ∧
    np_sub (led_offsets_of cue) (led_onsets_of cue) = Ok d ∧
    np_argsort (int_array d)
      ≠ np_argsort (number_list (cue_duration <$> metadata_trials self)).


(** The trace has another number of rising edges than the metadata has
    trials. *)
Definition onset_count_differs (binarise : DataFrame float → DataFrame Z) (self : Reach)
    (tbl : DataFrame float) : Prop :=
  ∃ t' cue,
    correct_led tbl = Ok t' ∧ read_cue_leds (binarise t') = Ok cue ∧
    length (led_onsets_of cue) ≠ length (metadata_trials self).

(** The calls [method s] for the sessions [s] of a list, in order, each
    returning, take the world from [w] to [w']. *)
Inductive calls_in_order {Session World : Type}
    (method : Session → World → World * result unit)
    : list Session → World → World → Prop :=
  | calls_nil (w : World) : calls_in_order method [] w w
  | calls_cons (s : Session) (l : list Session) (w w' w'' : World) :
      method s w = (w', Ok ()) →
      calls_in_order method l w' w'' →
      calls_in_order method (s :: l) w w''.

(** The progress lines of the sessions of a list whose first element has
    position [i], out of [n] sessions. *)
Definition progress_lines {Session : Type} (session_name : Session → string)
    (what : string) (n i : nat) (l : list Session) : list string :=
  imap (λ k s, progress_line what (session_name s) (i + k + 1) n) l.

(** A loop over the sessions [l] returns exactly when [method] returns for
    every session, called in order, each on the world the one before left; it
    has then printed one progress line per session. *)
Definition returns_after_all_sessions {Session World : Type}
    (session_name : Session → string) (what : string)
    (method : Session → World → World * result unit) (l : list Session)
    (loop : @state World → @state World * result unit) : Prop :=
  ∀ σ σ',
    loop σ = (σ', Ok ()) ↔
    calls_in_order method l (world σ) (world σ') ∧
    stdout σ' = stdout σ ++ progress_lines session_name what (length l) 0 l.

(** A loop over the sessions [l] raises exactly when [method] raises for some
    session after it returned for the sessions before; the exception is that
    call's, the world is as that call left it, and the progress lines printed
    are those of the sessions up to and including the failing one. *)
Definition aborts_at_first_failure {Session World : Type}
    (session_name : Session → string) (what : string)
    (method : Session → World → World * result unit) (l : list Session)
    (loop : @state World → @state World * result unit) : Prop :=
  ∀ σ σ' e,
    loop σ = (σ', Raise e) ↔
    ∃ pre s post w,
      l = pre ++ s :: post ∧
      calls_in_order method pre (world σ) w ∧
      method s w = (world σ', Raise e) ∧
      stdout σ' = stdout σ
        ++ progress_lines session_name what (length l) 0 (pre ++ [s]).

(** ** Concrete inputs *)

(** Modelled from the spec: [signal.binarise] is defined in another module of
    the package; the spec says it thresholds a raw analog trace into a binary
    0/1 series.  This function puts 1 where a sample exceeds 0.5 and 0
    elsewhere, column by column, and is used for the concrete runs only. *)
Definition threshold_binarise (t : DataFrame float) : DataFrame Z :=
  mkDataFrame (index_len t)
    ((λ c : list float, (λ x : float, if PrimFloat.ltb 0.5%float x then 1 else 0) <$> c)
       <$> columns t).

(** A stable insertion sort of the values paired with their positions: equal
    values keep their original order. *)
Fixpoint insert_key {A} (leb : A → A → bool) (x : A * nat) (l : list (A * nat))
    : list (A * nat) :=
  match l with
  | [] => [x]
  | y :: l' => if leb x.1 y.1 then x :: l else y :: insert_key leb x l'
  end.

Definition stable_argsort {A} (leb : A → A → bool) (a : list A) : list nat :=
  snd <$> foldr (insert_key leb) [] (zip a (seq 0 (length a))).

Definition json_int (x : json_number) : Z :=
  match x with JInt z => z | JFloat _ => 0 end.

Definition integer_argsort (a : array_like) : list nat :=
  match a with
  | int_array a => stable_argsort Z.leb a
  | number_list l => stable_argsort Z.leb (json_int <$> l)
  end.

Lemma insert_key_perm {A} (leb : A → A → bool) (x : A * nat) (l : list (A * nat)) :
  insert_key leb x l ≡ₚ x :: l.
Proof.
  induction l as [|y l IH]; simpl; [done|].
  destruct (leb x.1 y.1); [done|]. rewrite IH. apply Permutation_swap.
Qed.

Lemma stable_argsort_perm {A} (leb : A → A → bool) (a : list A) :
  stable_argsort leb a ≡ₚ seq 0 (length a).
Proof.
  unfold stable_argsort.
  assert (∀ l : list (A * nat), foldr (insert_key leb) [] l ≡ₚ l) as H.
  { induction l as [|x l IH]; simpl; [done|]. by rewrite insert_key_perm, IH. }
  rewrite H. rewrite snd_zip; [done|]. by rewrite length_seq.
Qed.

Lemma integer_argsort_perm (a : array_like) :
  integer_argsort a ≡ₚ seq 0 (array_len a).
Proof.
  destruct a as [a|l]; simpl; [apply stable_argsort_perm|].
  rewrite <- (length_fmap json_int l). apply stable_argsort_perm.
Qed.

(** A stand-in for numpy's [np.argsort], for the concrete runs: it sorts
    integers with the stable insertion sort.  The runs below use it on integer
    durations without ties only, where every sorting order agrees. *)
Definition demo_argsort : Argsort := mkArgsort integer_argsort integer_argsort_perm.

(** Two LED pulses, the first lasting two samples and the second one. *)
Definition two_pulse_table : DataFrame float :=
  mkDataFrame 7
    (list_to_map [ (LED_key, [0; 1; 1; 0; 0; 1; 0]%float);
                   (sync_key, [0; 0; 0; 0; 0; 0; 0]%float) ]).

(** Two trials, the longer cue first: the ranks agree with [two_pulse_table]. *)
Definition session_long_short : Reach :=
  mkReach "s1" [ mkTrial LEFT MISSED (JInt 2); mkTrial RIGHT CORRECT (JInt 1) ].

(** Two trials, the shorter cue first: the ranks disagree with
    [two_pulse_table]. *)
Definition session_short_long : Reach :=
  mkReach "s2" [ mkTrial LEFT MISSED (JInt 1); mkTrial RIGHT CORRECT (JInt 2) ].

(** The LED comes on at the last sample and the recording ends. *)
Definition open_pulse_table : DataFrame float :=
  mkDataFrame 2
    (list_to_map [ (LED_key, [0; 1]%float); (sync_key, [0; 0]%float) ]).

Definition session_no_trials : Reach := mkReach "s3" [].

(** An early recording: the cue is under the older key, and there is no
    [ReachLEDs] column. *)
Definition back_sensor_table : DataFrame float :=
  mkDataFrame 4
    (list_to_map [ (back_sensor_key, [0; 1; 1; 0]%float);
                   (sync_key, [0; 0; 0; 0]%float) ]).

Definition session_one_trial : Reach := mkReach "s4" [ mkTrial LEFT CORRECT (JInt 1) ].

(** A table whose LED channel was pulled down by the sync channel. *)
Definition corrupted_table : DataFrame float :=
  mkDataFrame 3
    (list_to_map [ (LED_key, [-3; 2; -3]%float); (sync_key, [6; 0; 6]%float) ]).

(** A small world for the concrete runs: paths are strings, two directories
    exist, every mouse id yields one session, and a session object is its
    name. *)
Definition demo_exists (p : string) : bool :=
  String.eqb p "/data" || String.eqb p "/meta".

Definition demo_joinpath (p name : string) : string := p +:+ "/" +:+ name.

Definition demo_get_sessions (ids : list string) (d : string) (m : option string)
    : result (list (@session_info string unit)) :=
  Ok ((λ id, mkInfo id () d) <$> ids).

Definition demo_behaviour (name : string) (_ : unit) (_ : string) : result string :=
  Ok name.

Definition demo_experiment : @Experiment string unit string :=
  mkExperiment demo_behaviour ["m1"; "m2"] "/data" None
    "/data/raw" "/data/processed" "/data/interim" ["m1"; "m2"].

(** Session methods of the small world: the selection of a session is its
    name, session "m2" can be made to fail, and the aligned table of a session
    has one column, labelled [(0, 1, 0)] (recording, unit, trial) and holding
    the session's name. *)
Definition demo_select_units (s : string) (_ : unit) : result string := Ok s.

Definition demo_failing_select (s : string) (_ : unit) : result string :=
  if String.eqb s "m2" then Raise (ValueError "no units") else Ok s.

Definition demo_align_trials (s : string) (_ : unit) (_ : option string)
    : result (list (list Z * string)) :=
  Ok [([0; 1; 0], s)].

(** A stand-in for pandas on a non-empty list of tables, for the concrete
    runs: a table is the list of its columns, each under a tuple of labels;
    the key of a table goes in front of its column labels, and the call raises
    unless there is one name for every level of every label. *)
Definition keyed {Col} (k : nat) (t : list (list Z * Col)) : list (list Z * Col) :=
  (λ c, (Z.of_nat k :: c.1, c.2)) <$> t.

Definition demo_concat (objs : list (list (list Z * string))) (keys : list nat)
    (names : list string) : result (list (list Z * string)) :=
  let df := concat (zip_with keyed keys objs) in
  if forallb (λ c, Nat.eqb (length c.1) (length names)) df then Ok df
  else Raise (ValueError "Length of names must match number of levels in MultiIndex.").

(** The world of the small world is the log of the calls made so far; the
    processing of session "m2" can be made to fail after it has written to the
    log. *)
Definition demo_process (tag : string) (s : string) (w : list string)
    : list string * result unit :=
  (w ++ [tag +:+ " " +:+ s], Ok ()).

Definition demo_failing_process (tag : string) (s : string) (w : list string)
    : list string * result unit :=
  (w ++ [tag +:+ " " +:+ s],
   if String.eqb s "m2" then Raise (ValueError "no data") else Ok ()).

(** * Properties *)

(** ** The [result] monad *)

Lemma bind_Ok {A B} (f : A → result B) (m : result A) (b : B) :
  m ≫= f = Ok b ↔ ∃ a, m = Ok a ∧ f a = Ok b.
Proof.
  destruct m as [a|e]; simpl; split.
  - intros H. by exists a.
  - by intros (a' & [= <-] & H).
  - done.
  - by intros (a' & [=] & _).
Qed.

Ltac inv_bind H :=
  let x := fresh "x" in
  let Hx := fresh "Hx" in
  apply bind_Ok in H; destruct H as (x & Hx & H).

(** ** Index arrays *)

Lemma elem_of_np_where_from (mask : list bool) (i j : nat) :
  j ∈ np_where_from i mask ↔ ∃ k : nat, j = (i + k)%nat ∧ mask !! k = Some true.
Proof.
  revert i. induction mask as [|b mask IH]; intros i; simpl.
  - split; [by intros ?%elem_of_nil | by intros (k & _ & ?)].
  - assert (j ∈ np_where_from (S i) mask ↔
            ∃ k : nat, j = (i + S k)%nat ∧ mask !! k = Some true) as IH'.
    { rewrite IH. split; intros (k & -> & Hk); exists k; split; auto; lia. }
    destruct b.
    + rewrite elem_of_cons, IH'. split.
      * intros [-> | (k & -> & Hk)]; [exists 0%nat | exists (S k)]; split; auto; lia.
      * intros ([|k] & -> & Hk); [left; lia | right; eauto].
    + rewrite IH'. split.
      * intros (k & -> & Hk). exists (S k). auto.
      * intros ([|k] & -> & Hk); [done | eauto].
Qed.

Lemma np_where_from_lower (mask : list bool) (i : nat) :
  Forall (λ j, i ≤ j)%nat (np_where_from i mask).
Proof.
  apply Forall_forall. intros j (k & -> & _)%elem_of_np_where_from. lia.
Qed.

Lemma NoDup_np_where_from (mask : list bool) (i : nat) : NoDup (np_where_from i mask).
Proof.
  revert i. induction mask as [|b mask IH]; intros i; simpl; [constructor|].
  destruct b; [|apply IH]. constructor; [|apply IH].
  intros Hin. pose proof (np_where_from_lower mask (S i)) as Hlow.
  rewrite Forall_forall in Hlow. apply Hlow in Hin. lia.
Qed.

Lemma eq_and_eq_lookup (a b : list Z) (x y : Z) (k : nat) :
  eq_and_eq a x b y !! k = Some true ↔ a !! k = Some x ∧ b !! k = Some y.
Proof.
  unfold eq_and_eq. rewrite lookup_zip_with, !list_lookup_fmap.
  destruct (a !! k) as [u|], (b !! k) as [v|]; simpl; try (split; [done | by intros [? ?]]).
  split.
  - intros [= [->%Z.eqb_eq ->%Z.eqb_eq]%andb_true_iff]. done.
  - intros [[= ->] [= ->]]. by rewrite !Z.eqb_refl.
Qed.

Lemma init_tail_lookup {A} (l : list A) (k : nat) (u v : A) :
  init_slice l !! k = Some u ∧ tail_slice l !! k = Some v ↔
  l !! k = Some u ∧ l !! S k = Some v.
Proof.
  unfold init_slice, tail_slice. rewrite lookup_drop. simpl. split.
  - intros [[Hu _]%lookup_take_Some Hv]. done.
  - intros [Hu Hv]. split; [|done]. apply lookup_take_Some. split; [done|].
    apply lookup_lt_Some in Hv. lia.
Qed.

(** An index is an onset exactly when the trace steps from 0 to 1 there. *)
Lemma elem_of_led_onsets (cue_leds : list Z) (j : nat) :
  j ∈ led_onsets_of cue_leds ↔ cue_leds !! j = Some 0 ∧ cue_leds !! S j = Some 1.
Proof.
  unfold led_onsets_of, np_where. rewrite elem_of_np_where_from. split.
  - intros (k & -> & Hk). apply eq_and_eq_lookup, init_tail_lookup in Hk. done.
  - intros H. exists j. split; [done|]. by apply eq_and_eq_lookup, init_tail_lookup.
Qed.

(** An index is an offset exactly when the trace steps from 1 to 0 there. *)
Lemma elem_of_led_offsets (cue_leds : list Z) (j : nat) :
  j ∈ led_offsets_of cue_leds ↔ cue_leds !! j = Some 1 ∧ cue_leds !! S j = Some 0.
Proof.
  unfold led_offsets_of, np_where. rewrite elem_of_np_where_from. split.
  - intros (k & -> & Hk). apply eq_and_eq_lookup, init_tail_lookup in Hk. done.
  - intros H. exists j. split; [done|]. by apply eq_and_eq_lookup, init_tail_lookup.
Qed.

Lemma np_sub_Raise (a b : list nat) (e : exn) :
  np_sub a b = Raise e → e = ValueError "operands could not be broadcast together".
Proof.
  unfold np_sub. case_bool_decide; [done|].
  destruct a as [|x [|x' a]], b as [|y [|y' b]]; try done; by intros [= <-].
Qed.

Lemma argsort_empty (np_argsort : Argsort) :
  np_argsort (int_array []) = np_argsort (number_list []).
Proof.
  pose proof (argsort_perm np_argsort (int_array [])) as H1%Permutation_nil_r.
  pose proof (argsort_perm np_argsort (number_list [])) as H2%Permutation_nil_r.
  simpl in *. congruence.
Qed.

Lemma np_sub_same_length (cue_leds : list Z) :
  length (led_offsets_of cue_leds) = length (led_onsets_of cue_leds) →
  np_sub (led_offsets_of cue_leds) (led_onsets_of cue_leds)
    = Ok (zip_with (λ off on, Z.of_nat off - Z.of_nat on)
            (led_offsets_of cue_leds) (led_onsets_of cue_leds)).
Proof. intros H. unfold np_sub. by rewrite bool_decide_true. Qed.

Lemma NoDup_led_onsets (cue_leds : list Z) : NoDup (led_onsets_of cue_leds).
Proof. apply NoDup_np_where_from. Qed.

Lemma led_onsets_lt (cue_leds : list Z) (j : nat) :
  j ∈ led_onsets_of cue_leds → (j < length cue_leds)%nat.
Proof. intros [H _]%elem_of_led_onsets. by apply lookup_lt_Some in H. Qed.

Lemma led_offsets_lt (cue_leds : list Z) (j : nat) :
  j ∈ led_offsets_of cue_leds → (j < length cue_leds)%nat.
Proof. intros [H _]%elem_of_led_offsets. by apply lookup_lt_Some in H. Qed.

Lemma led_onsets_offsets_disjoint (cue_leds : list Z) (j : nat) :
  j ∈ led_onsets_of cue_leds → j ∈ led_offsets_of cue_leds → False.
Proof.
  intros [H0 _]%elem_of_led_onsets [H1 _]%elem_of_led_offsets. congruence.
Qed.

(** ** Two-dimensional arrays *)

Lemma np_zeros_shape (n m : nat) : has_shape (np_zeros n m) n m.
Proof.
  split; [apply length_replicate|].
  apply Forall_forall. intros row [-> _]%elem_of_replicate. apply length_replicate.
Qed.

Lemma np_get_zeros (n m i c : nat) :
  (i < n)%nat → (c < m)%nat → np_get (np_zeros n m) i c = Some 0.
Proof.
  intros Hi Hc. unfold np_get, np_zeros.
  rewrite (lookup_replicate_2 n _ i Hi). simpl. by apply lookup_replicate_2.
Qed.

Lemma np_get_Some_lt (arr : ndarray) (n m i c : nat) (v : Z) :
  has_shape arr n m → np_get arr i c = Some v → (i < n)%nat ∧ (c < m)%nat.
Proof.
  intros [Hn Hm] Hget. unfold np_get in Hget.
  destruct (arr !! i) as [row|] eqn:Hrow; [|done]. simpl in Hget.
  split.
  - apply lookup_lt_Some in Hrow. lia.
  - rewrite Forall_forall in Hm. rewrite <- (Hm row).
    + by apply lookup_lt_Some in Hget.
    + apply list_elem_of_lookup. eauto.
Qed.

Lemma np_get_is_Some (arr : ndarray) (n m i c : nat) :
  has_shape arr n m → (i < n)%nat → (c < m)%nat → ∃ v, np_get arr i c = Some v.
Proof.
  intros [Hn Hm] Hi Hc. unfold np_get.
  destruct (lookup_lt_is_Some_2 arr i) as [row Hrow]; [lia|].
  rewrite Hrow. simpl. apply lookup_lt_is_Some_2.
  rewrite Forall_forall in Hm. rewrite (Hm row); [done|].
  apply list_elem_of_lookup. eauto.
Qed.

Lemma np_set_Ok_inv (arr arr' : ndarray) (i c : nat) (v : Z) (n m : nat) :
  np_set arr i c v = Ok arr' → has_shape arr n m →
  has_shape arr' n m ∧ (i < n)%nat ∧ (c < m)%nat ∧
  np_get arr' i c = Some v ∧
  ∀ i' c', i' ≠ i ∨ c' ≠ c → np_get arr' i' c' = np_get arr i' c'.
Proof.
  unfold np_set. intros Hset [Hn Hm].
  destruct (arr !! i) as [row|] eqn:Hrow; [|done].
  case_bool_decide as Hc; [|done]. injection Hset as <-.
  pose proof (lookup_lt_Some _ _ _ Hrow) as Hi.
  assert (length row = m) as Hlen.
  { rewrite Forall_forall in Hm. apply Hm, list_elem_of_lookup. eauto. }
  split; [|split; [lia|split; [lia|split]]].
  - split; [by rewrite length_insert|].
    apply Forall_insert; [done|]. by rewrite length_insert.
  - unfold np_get. rewrite list_lookup_insert_eq by done. simpl.
    by apply list_lookup_insert_eq.
  - intros i' c' Hne. unfold np_get.
    destruct (decide (i' = i)) as [->|Hi'].
    + rewrite list_lookup_insert_eq by done. rewrite Hrow. simpl.
      destruct Hne as [?|Hc']; [done|]. by apply list_lookup_insert_ne.
    + by rewrite list_lookup_insert_ne.
Qed.

Lemma np_set_is_Ok (arr : ndarray) (i c : nat) (v : Z) (n m : nat) :
  has_shape arr n m → (i < n)%nat → (c < m)%nat → ∃ arr', np_set arr i c v = Ok arr'.
Proof.
  intros [Hn Hm] Hi Hc. unfold np_set.
  destruct (lookup_lt_is_Some_2 arr i) as [row Hrow]; [lia|]. rewrite Hrow.
  assert (length row = m) as Hlen.
  { rewrite Forall_forall in Hm. apply Hm, list_elem_of_lookup. eauto. }
  rewrite bool_decide_true by lia. eauto.
Qed.

Lemma np_set_many_Ok_inv (idx : list nat) (arr arr' : ndarray) (c : nat) (v : Z)
    (n m : nat) :
  np_set_many arr idx c v = Ok arr' → has_shape arr n m →
  has_shape arr' n m ∧
  (∀ i, i ∈ idx → np_get arr' i c = Some v) ∧
  (∀ i c', c' ≠ c ∨ i ∉ idx → np_get arr' i c' = np_get arr i c').
Proof.
  revert arr. induction idx as [|i0 idx IH]; intros arr Hset Hsh; simpl in Hset.
  - injection Hset as <-. split; [done|]. split; [|done].
    by intros i ?%elem_of_nil.
  - inv_bind Hset.
    destruct (np_set_Ok_inv _ _ _ _ _ _ _ Hx Hsh) as (Hsh1 & _ & _ & Hget1 & Hframe1).
    destruct (IH _ Hset Hsh1) as (Hsh' & Hin & Hframe).
    split; [done|]. split.
    + intros i [->|Hi]%elem_of_cons; [|by apply Hin].
      destruct (decide (i0 ∈ idx)) as [?|Hni]; [by apply Hin|].
      rewrite Hframe by auto. done.
    + intros i c' Hne. rewrite Hframe.
      * apply Hframe1. destruct Hne as [?|Hni]; [by right|].
        left. intros ->. apply Hni. by left.
      * destruct Hne as [?|Hni]; [by left|]. right. intros ?. apply Hni. by right.
Qed.

Lemma np_set_many_is_Ok (idx : list nat) (arr : ndarray) (c : nat) (v : Z) (n m : nat) :
  has_shape arr n m → (c < m)%nat → Forall (λ i, i < n)%nat idx →
  ∃ arr', np_set_many arr idx c v = Ok arr'.
Proof.
  revert arr. induction idx as [|i0 idx IH]; intros arr Hsh Hc Hidx; simpl.
  - eauto.
  - apply Forall_cons in Hidx as [Hi0 Hidx].
    destruct (np_set_is_Ok arr i0 c v n m) as [arr1 H1]; [done..|].
    rewrite H1. simpl.
    apply IH; [|done..].
    by destruct (np_set_Ok_inv _ _ _ _ _ _ _ H1 Hsh) as (? & _).
Qed.

(** ** Action codes *)

Lemma action_code_bitmask (t : trial) :
  action_code t = Ok (bitmask_of (spout t) (outcome t)).
Proof. destruct t as [[] [] d]; vm_compute; reflexivity. Qed.

Lemma bitmask_of_nonzero (side : Targets) (o : Outcomes) : bitmask_of side o ≠ 0.
Proof. destruct side, o; vm_compute; discriminate. Qed.

(** ** The loop over the trials *)

Lemma stamp_action_Some (onsets : list nat) (acc : ndarray) (i : nat) (t : trial)
    (onset : nat) :
  onsets !! i = Some onset →
  stamp_action onsets acc i t = np_set acc onset 0 (bitmask_of (spout t) (outcome t)).
Proof. intros H. unfold stamp_action. by rewrite H, action_code_bitmask. Qed.

Lemma stamp_loop_inv (onsets : list nat) (l : list trial) (i : nat)
    (acc arr' : ndarray) (n m : nat) :
  for_enumerate (stamp_action onsets) i l acc = Ok arr' → has_shape acc n m →
  has_shape arr' n m ∧
  (∀ j c, c ≠ 0%nat ∨ (∀ k, (k < length l)%nat → onsets !! (i + k)%nat ≠ Some j) →
          np_get arr' j c = np_get acc j c).
Proof.
  revert i acc. induction l as [|t l IH]; intros i acc Hloop Hsh; simpl in Hloop.
  - injection Hloop as <-. done.
  - inv_bind Hloop. unfold stamp_action in Hx.
    destruct (onsets !! i) as [onset|] eqn:Honset; [|done].
    inv_bind Hx.
    destruct (np_set_Ok_inv _ _ _ _ _ _ _ Hx Hsh) as (Hsh1 & _ & _ & _ & Hframe1).
    destruct (IH _ _ Hloop Hsh1) as (Hsh' & Hframe).
    split; [done|]. intros j c Hne. rewrite Hframe.
    + apply Hframe1. destruct Hne as [?|Hne]; [by right|]. left.
      intros ->. apply (Hne 0%nat); [simpl; lia|]. by rewrite Nat.add_0_r.
    + destruct Hne as [?|Hne]; [by left|]. right. intros k Hk.
      replace (S i + k)%nat with (i + S k)%nat by lia. apply Hne. simpl. lia.
Qed.

Lemma stamp_loop_values (onsets : list nat) (l : list trial) (i : nat)
    (acc arr' : ndarray) (n m : nat) :
  NoDup onsets →
  for_enumerate (stamp_action onsets) i l acc = Ok arr' → has_shape acc n m →
  ∀ k t onset, l !! k = Some t → onsets !! (i + k)%nat = Some onset →
    np_get arr' onset 0 = Some (bitmask_of (spout t) (outcome t)).
Proof.
  intros Hnd. revert i acc.
  induction l as [|t0 l IH]; intros i acc Hloop Hsh k t onset Hk Honset; [done|].
  simpl in Hloop. inv_bind Hloop. unfold stamp_action in Hx.
  destruct (onsets !! i) as [onset0|] eqn:Honset0; [|done].
  rewrite action_code_bitmask in Hx. simpl in Hx.
  destruct (np_set_Ok_inv _ _ _ _ _ _ _ Hx Hsh) as (Hsh1 & _ & _ & Hget1 & _).
  destruct k as [|k]; simpl in Hk.
  - injection Hk as ->. rewrite Nat.add_0_r in Honset.
    assert (onset = onset0) as -> by congruence.
    destruct (stamp_loop_inv _ _ _ _ _ _ _ Hloop Hsh1) as (_ & Hframe).
    rewrite Hframe; [done|]. right. intros k' _ Hk'.
    pose proof (NoDup_lookup _ _ _ _ Hnd Honset0 Hk'). lia.
  - apply (IH (S i) x Hloop Hsh1 k); [done|].
    by replace (S i + k)%nat with (i + S k)%nat by lia.
Qed.

Lemma stamp_loop_is_Ok (onsets : list nat) (l : list trial) (i : nat)
    (acc : ndarray) (n m : nat) :
  has_shape acc n m → (0 < m)%nat →
  (∀ k, (k < length l)%nat → ∃ onset, onsets !! (i + k)%nat = Some onset ∧ (onset < n)%nat) →
  ∃ arr', for_enumerate (stamp_action onsets) i l acc = Ok arr'.
Proof.
  revert i acc. induction l as [|t l IH]; intros i acc Hsh Hm Hidx; simpl; [eauto|].
  destruct (Hidx 0%nat) as (onset & Honset & Hlt); [simpl; lia|].
  rewrite Nat.add_0_r in Honset. rewrite (stamp_action_Some _ _ _ _ _ Honset).
  destruct (np_set_is_Ok acc onset 0 (bitmask_of (spout t) (outcome t)) n m)
    as [arr1 H1]; [done..|].
  rewrite H1. simpl. apply IH; [|done|].
  - by destruct (np_set_Ok_inv _ _ _ _ _ _ _ H1 Hsh) as (? & _).
  - intros k Hk. replace (S i + k)%nat with (i + S k)%nat by lia.
    apply Hidx. simpl. lia.
Qed.

(** ** Well-formed tables *)

#[global] Instance df_wf_dec {A} (df : DataFrame A) : Decision (df_wf df).
Proof. unfold df_wf. apply _. Defined.

(** In a well-formed binarised table the trace that is read has one entry per
    row. *)
Lemma read_cue_leds_length (df : DataFrame Z) (cue : list Z) :
  df_wf df → read_cue_leds df = Ok cue → length cue = index_len df.
Proof.
  unfold df_wf, read_cue_leds, try_except_KeyError, df_getitem. intros Hwf H.
  destruct (columns df !! LED_key) as [c|] eqn:Hled.
  - injection H as <-. by apply (Hwf LED_key).
  - destruct (columns df !! back_sensor_key) as [c|] eqn:Hback; [|done].
    injection H as <-. by apply (Hwf back_sensor_key).
Qed.

Example two_pulse_table_wf : df_wf (threshold_binarise two_pulse_table).
Proof. refine (bool_decide_unpack _ _). vm_compute. exact I. Qed.

(** ** The correction of the LED channel *)

Lemma correct_led_index_len (tbl t' : DataFrame float) :
  correct_led tbl = Ok t' → index_len t' = index_len tbl.
Proof.
  unfold correct_led. intros H. inv_bind H.
  destruct (PrimFloat.ltb _ _).
  - inv_bind H. inv_bind H. by injection H as <-.
  - by injection H as <-.
Qed.

Lemma correct_led_KeyError (tbl : DataFrame float) :
  columns tbl !! LED_key = None → correct_led tbl = Raise (KeyError LED_key).
Proof. intros H. unfold correct_led, df_getitem. by rewrite H. Qed.

(** ** The event column *)

Section Labelling.
Variable binarise : DataFrame float → DataFrame Z.
Variable np_argsort : Argsort.

Lemma bind_Ok_l {A B} (f : A → result B) (a : A) : Ok a ≫= f = f a.
Proof. reflexivity. Qed.

(** Once the trace is read and the events are marked, what is left of
    [label_events] is the two checks and the loop. *)
Lemma label_events_unfold (self : Reach) (t' : DataFrame float) (plot : bool)
    (cue : list Z) (arr1 arr2 : ndarray) :
  read_cue_leds (binarise t') = Ok cue →
  np_set_many (np_zeros (index_len (binarise t')) 2) (led_onsets_of cue) 1 Events.led_on
    = Ok arr1 →
  np_set_many arr1 (led_offsets_of cue) 1 Events.led_off = Ok arr2 →
  label_events binarise np_argsort self t' plot =
    if negb (bool_decide (length (led_onsets_of cue) = length (metadata_trials self)))
    then Raise (PixelsError (trial_count_msg self))
    else
      d ← np_sub (led_offsets_of cue) (led_onsets_of cue);
      if negb (np_array_equal (np_argsort (int_array d))
                 (np_argsort (number_list (cue_duration <$> metadata_trials self))))
      then Raise (PixelsError (trial_data_msg self))
      else
        labels ← for_enumerate (stamp_action (led_onsets_of cue)) 0%nat
                   (metadata_trials self) arr2;
        if plot then Raise (NameError "back_sensor_signal") else Ok labels.
Proof.
  intros Hcue H1 H2. unfold label_events. cbv zeta.
  rewrite Hcue, bind_Ok_l. cbv beta. rewrite H1, bind_Ok_l. cbv beta.
  rewrite H2, bind_Ok_l. reflexivity.
Qed.

(** Marking the events cannot fail when the trace is no longer than the
    table has rows. *)
Lemma mark_events_is_Ok (cue : list Z) (n : nat) :
  (length cue ≤ n)%nat →
  ∃ arr1 arr2,
    np_set_many (np_zeros n 2) (led_onsets_of cue) 1 Events.led_on = Ok arr1 ∧
    np_set_many arr1 (led_offsets_of cue) 1 Events.led_off = Ok arr2.
Proof.
  intros Hlen.
  destruct (np_set_many_is_Ok (led_onsets_of cue) (np_zeros n 2) 1 Events.led_on n 2)
    as [arr1 H1].
  { apply np_zeros_shape. }
  { lia. }
  { apply Forall_forall. intros j Hj%led_onsets_lt. lia. }
  destruct (np_set_many_Ok_inv _ _ _ _ _ _ _ H1 (np_zeros_shape n 2)) as (Hsh1 & _).
  destruct (np_set_many_is_Ok (led_offsets_of cue) arr1 1 Events.led_off n 2)
    as [arr2 H2]; [done|lia| |by eauto].
  apply Forall_forall. intros j Hj%led_offsets_lt. lia.
Qed.

(** What the two marking assignments leave in the array. *)
Lemma mark_events_spec (cue : list Z) (n : nat) (arr1 arr2 : ndarray) :
  np_set_many (np_zeros n 2) (led_onsets_of cue) 1 Events.led_on = Ok arr1 →
  np_set_many arr1 (led_offsets_of cue) 1 Events.led_off = Ok arr2 →
  has_shape arr2 n 2 ∧
  ∀ j, (j < n)%nat →
    np_get arr2 j 0 = Some 0 ∧
    np_get arr2 j 1 =
      Some (if decide (j ∈ led_onsets_of cue) then Events.led_on
            else if decide (j ∈ led_offsets_of cue) then Events.led_off
            else 0).
Proof.
  intros H1 H2.
  destruct (np_set_many_Ok_inv _ _ _ _ _ _ _ H1 (np_zeros_shape n 2))
    as (Hsh1 & Hin1 & Hframe1).
  destruct (np_set_many_Ok_inv _ _ _ _ _ _ _ H2 Hsh1) as (Hsh2 & Hin2 & Hframe2).
  split; [done|]. intros j Hj. split.
  - rewrite Hframe2, Hframe1 by (left; lia). apply np_get_zeros; lia.
  - destruct (decide (j ∈ led_onsets_of cue)) as [Hon|Hon].
    + rewrite Hframe2; [by apply Hin1|]. right. intros Hoff.
      by apply (led_onsets_offsets_disjoint cue j).
    + destruct (decide (j ∈ led_offsets_of cue)) as [Hoff|Hoff]; [by apply Hin2|].
      rewrite Hframe2, Hframe1 by (by right). apply np_get_zeros; lia.
Qed.
End Labelling.

Lemma elem_of_np_flatnonzero (arr : ndarray) (c j : nat) :
  j ∈ np_flatnonzero arr c ↔ ∃ v, np_get arr j c = Some v ∧ v ≠ 0.
Proof.
  unfold np_flatnonzero, np_where, np_get. rewrite elem_of_np_where_from. split.
  - intros (k & -> & Hk). rewrite list_lookup_fmap in Hk. simpl.
    destruct (arr !! k) as [row|]; [|done]. simpl in *.
    destruct (row !! c) as [v|]; [|done]. exists v. split; [done|].
    injection Hk as Hk. apply negb_true_iff, Z.eqb_neq in Hk. done.
  - intros (v & Hget & Hv). exists j. split; [done|]. rewrite list_lookup_fmap.
    destruct (arr !! j) as [row|]; [|done]. simpl in *. rewrite Hget.
    f_equal. by apply negb_true_iff, Z.eqb_neq.
Qed.

Lemma NoDup_np_flatnonzero (arr : ndarray) (c : nat) : NoDup (np_flatnonzero arr c).
Proof. apply NoDup_np_where_from. Qed.

Section Extraction.
Variable binarise : DataFrame float → DataFrame Z.
Variable np_argsort : Argsort.

Lemma label_events_Ok_inv (self : Reach) (t' : DataFrame float) (plot : bool)
    (labels : ndarray) :
  label_events binarise np_argsort self t' plot = Ok labels →
  ∃ cue arr1 arr2 d,
    read_cue_leds (binarise t') = Ok cue ∧
    np_set_many (np_zeros (index_len (binarise t')) 2) (led_onsets_of cue) 1
      Events.led_on = Ok arr1 ∧
    np_set_many arr1 (led_offsets_of cue) 1 Events.led_off = Ok arr2 ∧
    length (led_onsets_of cue) = length (metadata_trials self) ∧
    np_sub (led_offsets_of cue) (led_onsets_of cue) = Ok d ∧
    np_argsort (int_array d) = np_argsort (number_list (cue_duration <$> metadata_trials self)) ∧
    for_enumerate (stamp_action (led_onsets_of cue)) 0%nat (metadata_trials self) arr2
      = Ok labels ∧
    plot = false.
Proof.
  intros H.
  destruct (read_cue_leds (binarise t')) as [cue|e] eqn:Hcue;
    [|by unfold label_events in H; rewrite Hcue in H].
  destruct (np_set_many (np_zeros (index_len (binarise t')) 2) (led_onsets_of cue) 1
              Events.led_on) as [arr1|e] eqn:H1;
    [|by unfold label_events in H; cbv zeta in H; rewrite Hcue, bind_Ok_l in H;
         cbv beta in H; rewrite H1 in H].
  destruct (np_set_many arr1 (led_offsets_of cue) 1 Events.led_off) as [arr2|e] eqn:H2;
    [|by unfold label_events in H; cbv zeta in H; rewrite Hcue, bind_Ok_l in H;
         cbv beta in H; rewrite H1, bind_Ok_l in H; cbv beta in H; rewrite H2 in H].
  rewrite (label_events_unfold binarise np_argsort self t' plot cue arr1 arr2) in H by done.
  case_bool_decide as Hcount; [|done]. simpl in H.
  inv_bind H. rename x into d.
  unfold np_array_equal in H. case_bool_decide as Hrank; [|done]. simpl in H.
  inv_bind H. destruct plot; [done|]. injection H as <-.
  exists cue, arr1, arr2, d. done.
Qed.

(** The labels of a run that passes both checks. *)
Lemma stamped_labels_spec (self : Reach) (cue : list Z) (n : nat)
    (arr1 arr2 labels : ndarray) :
  np_set_many (np_zeros n 2) (led_onsets_of cue) 1 Events.led_on = Ok arr1 →
  np_set_many arr1 (led_offsets_of cue) 1 Events.led_off = Ok arr2 →
  for_enumerate (stamp_action (led_onsets_of cue)) 0%nat (metadata_trials self) arr2
    = Ok labels →
  has_shape labels n 2 ∧
  ∀ j, (j < n)%nat →
    np_get labels j 1 =
      Some (if decide (j ∈ led_onsets_of cue) then Events.led_on
            else if decide (j ∈ led_offsets_of cue) then Events.led_off
            else 0) ∧
    (j ∉ led_onsets_of cue → np_get labels j 0 = Some 0).
Proof.
  intros H1 H2 Hloop.
  destruct (mark_events_spec cue n arr1 arr2 H1 H2) as (Hsh2 & Hmarks).
  destruct (stamp_loop_inv _ _ _ _ _ _ _ Hloop Hsh2) as (Hsh & Hframe).
  split; [done|]. intros j Hj. destruct (Hmarks j Hj) as [Hcol0 Hcol1]. split.
  - rewrite Hframe by (left; lia). done.
  - intros Hnot. rewrite Hframe; [done|]. right. intros k _ Hk.
    apply Hnot, list_elem_of_lookup. eauto.
Qed.
End Extraction.

(** ** Claims about the extractor *)

(** C10: whenever [_extract_action_labels] returns, and binarising keeps the
    number of rows, the result has one row per row of the input table and two
    columns; column 1 holds [Events.led_on] exactly where the binarised trace
    steps from 0 to 1, [Events.led_off] exactly where it steps from 1 to 0, and
    0 elsewhere; column 0 is 0 wherever the trace has no rising edge. *)
Theorem extract_returns_event_layout
    (binarise : DataFrame float → DataFrame Z)
    (np_argsort : Argsort) (self : Reach)
    (tbl : DataFrame float) (plot : bool) (labels : ndarray) :
  (∀ t, index_len (binarise t) = index_len t) →
  _extract_action_labels binarise np_argsort self tbl plot = Ok labels →
  ∃ t' cue,
    correct_led tbl = Ok t' ∧ read_cue_leds (binarise t') = Ok cue ∧
    length labels = index_len tbl ∧
    Forall (λ row, length row = 2%nat) labels ∧
    ∀ j, (j < index_len tbl)%nat →
      (∃ e, np_get labels j 1 = Some e ∧ (e = 0 ∨ e = Events.led_on ∨ e = Events.led_off)) ∧
      (np_get labels j 1 = Some Events.led_on ↔
         cue !! j = Some 0 ∧ cue !! S j = Some 1) ∧
      (np_get labels j 1 = Some Events.led_off ↔
         cue !! j = Some 1 ∧ cue !! S j = Some 0) ∧
      (¬ (cue !! j = Some 0 ∧ cue !! S j = Some 1) → np_get labels j 0 = Some 0).
Proof.
  intros Hrows H. unfold _extract_action_labels in H. inv_bind H. rename x into t'.
  apply label_events_Ok_inv in H
    as (cue & arr1 & arr2 & d & Hcue & H1 & H2 & _ & _ & _ & Hloop & _).
  destruct (stamped_labels_spec self cue _ arr1 arr2 labels H1 H2 Hloop)
    as ([Hn Hm] & Hspec).
  rewrite Hrows, (correct_led_index_len _ _ Hx) in Hn, Hspec.
  exists t', cue. do 4 (split; [done|]). intros j Hj.
  destruct (Hspec j Hj) as [Hcol1 Hcol0].
  rewrite <- elem_of_led_onsets, <- elem_of_led_offsets, Hcol1.
  split; [|split; [|split]].
  - eexists. split; [done|]. repeat case_decide; auto.
  - split.
    + intros [= Heq]. repeat case_decide; done.
    + intros Hon. by rewrite decide_True.
  - split.
    + intros [= Heq]. repeat case_decide; done.
    + intros Hoff. rewrite decide_False, decide_True; [done..|].
      intros Hon. by apply (led_onsets_offsets_disjoint cue j).
  - done.
Qed.

Lemma extract_returns_event_layout_witness :
  ∃ t' cue,
    correct_led two_pulse_table = Ok t' ∧
    read_cue_leds (threshold_binarise t') = Ok cue ∧
    length [[1; 1]; [0; 0]; [0; 2]; [0; 0]; [8; 1]; [0; 2]; [0; 0]]
      = index_len two_pulse_table ∧
    Forall (λ row, length row = 2%nat)
      [[1; 1]; [0; 0]; [0; 2]; [0; 0]; [8; 1]; [0; 2]; [0; 0]] ∧
    ∀ j, (j < index_len two_pulse_table)%nat →
      (∃ e, np_get [[1; 1]; [0; 0]; [0; 2]; [0; 0]; [8; 1]; [0; 2]; [0; 0]] j 1 = Some e ∧
            (e = 0 ∨ e = Events.led_on ∨ e = Events.led_off)) ∧
      (np_get [[1; 1]; [0; 0]; [0; 2]; [0; 0]; [8; 1]; [0; 2]; [0; 0]] j 1
         = Some Events.led_on ↔ cue !! j = Some 0 ∧ cue !! S j = Some 1) ∧
      (np_get [[1; 1]; [0; 0]; [0; 2]; [0; 0]; [8; 1]; [0; 2]; [0; 0]] j 1
         = Some Events.led_off ↔ cue !! j = Some 1 ∧ cue !! S j = Some 0) ∧
      (¬ (cue !! j = Some 0 ∧ cue !! S j = Some 1) →
       np_get [[1; 1]; [0; 0]; [0; 2]; [0; 0]; [8; 1]; [0; 2]; [0; 0]] j 0 = Some 0).
Proof.
  apply (extract_returns_event_layout threshold_binarise demo_argsort session_long_short
           two_pulse_table false).
  - intros t. reflexivity.
  - vm_compute. reflexivity.
Defined.

(** C1: when the binarised trace has as many rising edges and as many falling
    edges as the metadata has trials, and [np.argsort] gives the array
    [led_offsets - led_onsets] of line 91 the ranks it gives the metadata's cue
    durations, [_extract_action_labels] returns a two-column array whose
    column 0 is nonzero at exactly the onset indices, one per trial, and holds
    at the i-th onset the [ActionLabels] bitmask of the i-th trial's side and
    outcome.  This holds for every [binarise] and every [np_argsort]. *)
Theorem extract_stamps_one_code_per_trial
    (binarise : DataFrame float → DataFrame Z)
    (np_argsort : Argsort) (self : Reach)
    (tbl t' : DataFrame float) (cue : list Z) (d : list Z) :
  correct_led tbl = Ok t' →
  read_cue_leds (binarise t') = Ok cue →
  (length cue ≤ index_len (binarise t'))%nat →
  length (led_onsets_of cue) = length (metadata_trials self) →
  length (led_offsets_of cue) = length (metadata_trials self) →
  np_sub (led_offsets_of cue) (led_onsets_of cue) = Ok d →
  np_argsort (int_array d)
    = np_argsort (number_list (cue_duration <$> metadata_trials self)) →
  ∃ labels,
    _extract_action_labels binarise np_argsort self tbl false = Ok labels ∧
    has_shape labels (index_len (binarise t')) 2 ∧
    (∀ i t, metadata_trials self !! i = Some t →
       ∃ onset, led_onsets_of cue !! i = Some onset ∧
                np_get labels onset 0 = Some (bitmask_of (spout t) (outcome t))) ∧
    np_flatnonzero labels 0 ≡ₚ led_onsets_of cue ∧
    length (np_flatnonzero labels 0) = length (metadata_trials self).
Proof.
  intros Hcorr Hcue Hlen Hon Hoff Hd Hrank.
  destruct (mark_events_is_Ok cue _ Hlen) as (arr1 & arr2 & H1 & H2).
  destruct (mark_events_spec cue _ arr1 arr2 H1 H2) as (Hsh2 & _).
  destruct (stamp_loop_is_Ok (led_onsets_of cue) (metadata_trials self) 0 arr2 _ 2 Hsh2)
    as [labels Hloop]; [lia| |].
  { intros k Hk. destruct (lookup_lt_is_Some_2 (led_onsets_of cue) k) as [onset Honset];
      [lia|]. exists onset. split; [done|].
    assert (onset ∈ led_onsets_of cue) as Hin%led_onsets_lt
      by (apply list_elem_of_lookup; eauto). lia. }
  destruct (stamped_labels_spec self cue _ arr1 arr2 labels H1 H2 Hloop) as (Hsh & Hspec).
  assert (∀ i t, metadata_trials self !! i = Some t →
     ∃ onset, led_onsets_of cue !! i = Some onset ∧
              np_get labels onset 0 = Some (bitmask_of (spout t) (outcome t))) as Hcodes.
  { intros i t Ht.
    destruct (lookup_lt_is_Some_2 (led_onsets_of cue) i) as [onset Honset].
    { apply lookup_lt_Some in Ht. lia. }
    exists onset. split; [done|].
    by apply (stamp_loop_values _ _ _ _ _ _ _ (NoDup_led_onsets cue) Hloop Hsh2 i). }
  assert (np_flatnonzero labels 0 ≡ₚ led_onsets_of cue) as Hperm.
  { apply NoDup_Permutation; [apply NoDup_np_flatnonzero|apply NoDup_led_onsets|].
    intros j. rewrite elem_of_np_flatnonzero. split.
    - intros (v & Hget & Hv).
      destruct (np_get_Some_lt _ _ _ _ _ _ Hsh Hget) as [Hj _].
      destruct (decide (j ∈ led_onsets_of cue)) as [|Hnot]; [done|].
      destruct (Hspec j Hj) as [_ Hzero]. rewrite (Hzero Hnot) in Hget. congruence.
    - intros (i & Hi)%list_elem_of_lookup.
      destruct (lookup_lt_is_Some_2 (metadata_trials self) i) as [t Ht].
      { apply lookup_lt_Some in Hi. lia. }
      destruct (Hcodes i t Ht) as (onset & Honset & Hget).
      assert (onset = j) as -> by congruence.
      eexists. split; [exact Hget|]. apply bitmask_of_nonzero. }
  exists labels. split; [|split; [done|split; [done|split; [done|]]]].
  - unfold _extract_action_labels. rewrite Hcorr, bind_Ok_l.
    rewrite (label_events_unfold binarise np_argsort self t' false cue arr1 arr2) by done.
    rewrite bool_decide_true by done. simpl negb. cbv iota.
    rewrite Hd, bind_Ok_l.
    unfold np_array_equal. rewrite bool_decide_true by done. simpl negb. cbv iota.
    rewrite Hloop. reflexivity.
  - by rewrite Hperm.
Qed.

Lemma extract_stamps_one_code_per_trial_witness :
  ∃ labels,
    _extract_action_labels threshold_binarise demo_argsort session_long_short two_pulse_table false
      = Ok labels ∧
    has_shape labels (index_len (threshold_binarise two_pulse_table)) 2 ∧
    (∀ i t, metadata_trials session_long_short !! i = Some t →
       ∃ onset, led_onsets_of [0; 1; 1; 0; 0; 1; 0] !! i = Some onset ∧
                np_get labels onset 0 = Some (bitmask_of (spout t) (outcome t))) ∧
    np_flatnonzero labels 0 ≡ₚ led_onsets_of [0; 1; 1; 0; 0; 1; 0] ∧
    length (np_flatnonzero labels 0) = length (metadata_trials session_long_short).
Proof.
  apply (extract_stamps_one_code_per_trial threshold_binarise demo_argsort session_long_short
           two_pulse_table two_pulse_table [0; 1; 1; 0; 0; 1; 0] [2; 1]).
  - vm_compute. reflexivity.
  - vm_compute. reflexivity.
  - vm_compute. lia.
  - reflexivity.
  - reflexivity.
  - vm_compute. reflexivity.
  - vm_compute. reflexivity.
Defined.

Lemma append_inj_l (s a b : string) : s +:+ a = s +:+ b → a = b.
Proof. induction s as [|c s IH]; simpl; [done|]. intros [= H]. auto. Qed.

Lemma trial_msgs_differ (self : Reach) : trial_data_msg self ≠ trial_count_msg self.
Proof. unfold trial_data_msg, trial_count_msg. intros H%append_inj_l. discriminate. Qed.

(** C2, as stated, fails: a trace whose LED comes on once and never goes off,
    with metadata listing no trial, has no cue duration on either side (the
    subtraction of line 91 gives the empty array), so the two rank orders are
    both empty and equal, whatever the sort, and yet the routine raises the
    domain error, from the trial-count check. *)
Lemma rank_mismatch_iff_fails :
  ¬ (raises_PixelsError
       (_extract_action_labels threshold_binarise demo_argsort session_no_trials
          open_pulse_table false)
     ↔ cue_ranks_differ threshold_binarise demo_argsort session_no_trials open_pulse_table)
  ∧ np_sub (led_offsets_of [0; 1]) (led_onsets_of [0; 1]) = Ok [].
Proof.
  split; [|reflexivity].
  intros [H _]. destruct H as (t' & cue & d & Hcorr & Hcue & Hd & Hne).
  - eexists. vm_compute. reflexivity.
  - vm_compute in Hcorr. injection Hcorr as <-.
    vm_compute in Hcue. injection Hcue as <-.
    vm_compute in Hd. injection Hd as <-.
    apply Hne. vm_compute. reflexivity.
Qed.

(** C2, amended: when the trace can be read, has as many rising edges as the
    metadata has trials, and the subtraction of line 91 gives the array [d],
    the routine raises the domain error exactly when [np.argsort] of [d]
    differs from [np.argsort] of the metadata's cue durations; on a match it
    returns the labels, on a mismatch it raises and returns none.  This holds
    for every [binarise] and every [np_argsort]. *)
Theorem rank_check_decides
    (binarise : DataFrame float → DataFrame Z)
    (np_argsort : Argsort) (self : Reach)
    (tbl t' : DataFrame float) (cue : list Z) (d : list Z) :
  correct_led tbl = Ok t' →
  read_cue_leds (binarise t') = Ok cue →
  (length cue ≤ index_len (binarise t'))%nat →
  length (led_onsets_of cue) = length (metadata_trials self) →
  np_sub (led_offsets_of cue) (led_onsets_of cue) = Ok d →
  (raises_PixelsError (_extract_action_labels binarise np_argsort self tbl false) ↔
     np_argsort (int_array d)
       ≠ np_argsort (number_list (cue_duration <$> metadata_trials self))) ∧
  (np_argsort (int_array d)
     = np_argsort (number_list (cue_duration <$> metadata_trials self)) →
     ∃ labels, _extract_action_labels binarise np_argsort self tbl false = Ok labels) ∧
  (np_argsort (int_array d)
     ≠ np_argsort (number_list (cue_duration <$> metadata_trials self)) →
     _extract_action_labels binarise np_argsort self tbl false
       = Raise (PixelsError (trial_data_msg self))).
Proof.
  intros Hcorr Hcue Hlen Hon Hsub.
  destruct (mark_events_is_Ok cue _ Hlen) as (arr1 & arr2 & H1 & H2).
  destruct (mark_events_spec cue _ arr1 arr2 H1 H2) as (Hsh2 & _).
  destruct (stamp_loop_is_Ok (led_onsets_of cue) (metadata_trials self) 0 arr2 _ 2 Hsh2)
    as [labels Hloop]; [lia| |].
  { intros k Hk. destruct (lookup_lt_is_Some_2 (led_onsets_of cue) k) as [onset Honset];
      [lia|]. exists onset. split; [done|].
    assert (onset ∈ led_onsets_of cue) as Hin%led_onsets_lt
      by (apply list_elem_of_lookup; eauto). lia. }
  assert (_extract_action_labels binarise np_argsort self tbl false =
          if negb (np_array_equal (np_argsort (int_array d))
                     (np_argsort (number_list (cue_duration <$> metadata_trials self))))
          then Raise (PixelsError (trial_data_msg self)) else Ok labels) as ->.
  { unfold _extract_action_labels. rewrite Hcorr, bind_Ok_l.
    rewrite (label_events_unfold binarise np_argsort self t' false cue arr1 arr2) by done.
    rewrite bool_decide_true by done. simpl negb. cbv iota.
    rewrite Hsub, bind_Ok_l. cbv beta.
    destruct (negb _); [done|]. by rewrite Hloop. }
  unfold np_array_equal. case_bool_decide as Hrank; simpl.
  - split; [|split; [eauto|done]]. split; [by intros [msg [=]]|done].
  - split; [|split; [done|done]]. split; [done|]. intros _. by eexists.
Qed.

Lemma rank_check_decides_witness :
  (raises_PixelsError
     (_extract_action_labels threshold_binarise demo_argsort session_long_short
        two_pulse_table false) ↔
     demo_argsort (int_array [2; 1])
       ≠ demo_argsort (number_list (cue_duration <$> metadata_trials session_long_short))) ∧
  (demo_argsort (int_array [2; 1])
     = demo_argsort (number_list (cue_duration <$> metadata_trials session_long_short)) →
     ∃ labels,
       _extract_action_labels threshold_binarise demo_argsort session_long_short
           two_pulse_table false
         = Ok labels) ∧
  (demo_argsort (int_array [2; 1])
     ≠ demo_argsort (number_list (cue_duration <$> metadata_trials session_long_short)) →
     _extract_action_labels threshold_binarise demo_argsort session_long_short two_pulse_table false
       = Raise (PixelsError (trial_data_msg session_long_short))).
Proof.
  apply (rank_check_decides threshold_binarise demo_argsort session_long_short
           two_pulse_table two_pulse_table [0; 1; 1; 0; 0; 1; 0] [2; 1]).
  - vm_compute. reflexivity.
  - vm_compute. reflexivity.
  - vm_compute. lia.
  - reflexivity.
  - reflexivity.
Defined.

(** C3, as stated, fails: a trace with two rising edges and metadata with two
    trials, whose cue durations are ranked the other way round, makes the
    routine raise the domain error although the two counts are equal. *)
Lemma count_mismatch_iff_fails :
  ¬ (raises_PixelsError
       (_extract_action_labels threshold_binarise demo_argsort session_short_long
          two_pulse_table false)
     ↔ onset_count_differs threshold_binarise session_short_long two_pulse_table).
Proof.
  intros [H _]. destruct H as (t' & cue & Hcorr & Hcue & Hne).
  - eexists. vm_compute. reflexivity.
  - vm_compute in Hcorr. injection Hcorr as <-.
    vm_compute in Hcue. injection Hcue as <-.
    apply Hne. reflexivity.
Qed.

(** C3, amended: when the trace can be read, the routine raises the domain
    error about the number of trials exactly when the number of rising edges
    differs from the number of trials of the metadata. *)
Theorem trial_count_check
    (binarise : DataFrame float → DataFrame Z)
    (np_argsort : Argsort) (self : Reach)
    (tbl t' : DataFrame float) (cue : list Z) (plot : bool) :
  correct_led tbl = Ok t' →
  read_cue_leds (binarise t') = Ok cue →
  (length cue ≤ index_len (binarise t'))%nat →
  _extract_action_labels binarise np_argsort self tbl plot
    = Raise (PixelsError (trial_count_msg self))
  ↔ length (led_onsets_of cue) ≠ length (metadata_trials self).
Proof.
  intros Hcorr Hcue Hlen.
  destruct (mark_events_is_Ok cue _ Hlen) as (arr1 & arr2 & H1 & H2).
  destruct (mark_events_spec cue _ arr1 arr2 H1 H2) as (Hsh2 & _).
  unfold _extract_action_labels. rewrite Hcorr, bind_Ok_l.
  rewrite (label_events_unfold binarise np_argsort self t' plot cue arr1 arr2) by done.
  case_bool_decide as Hon; simpl negb; cbv iota; [|done].
  split; [|done]. intros H. exfalso.
  destruct (np_sub _ _) as [d|e] eqn:Hsub; [|by apply np_sub_Raise in Hsub as ->].
  rewrite bind_Ok_l in H. cbv beta in H.
  destruct (negb _).
  { injection H as H. by apply (trial_msgs_differ self). }
  destruct (stamp_loop_is_Ok (led_onsets_of cue) (metadata_trials self) 0 arr2 _ 2 Hsh2)
    as [labels Hloop]; [lia| |].
  { intros k Hk. destruct (lookup_lt_is_Some_2 (led_onsets_of cue) k) as [onset Honset];
      [lia|]. exists onset. split; [done|].
    assert (onset ∈ led_onsets_of cue) as Hin%led_onsets_lt
      by (apply list_elem_of_lookup; eauto). lia. }
  rewrite Hloop, bind_Ok_l in H. by destruct plot.
Qed.

Lemma trial_count_check_witness :
  _extract_action_labels threshold_binarise demo_argsort session_no_trials open_pulse_table false
    = Raise (PixelsError (trial_count_msg session_no_trials))
  ↔ length (led_onsets_of [0; 1]) ≠ length (metadata_trials session_no_trials).
Proof.
  apply (trial_count_check threshold_binarise demo_argsort session_no_trials
           open_pulse_table open_pulse_table [0; 1] false).
  - vm_compute. reflexivity.
  - vm_compute. reflexivity.
  - vm_compute. lia.
Defined.

(** ** The minimum of a series of floats *)








(** ** What the method does with the binarised table *)





(** The corrected LED channel of [corrupted_table], and its labels; a table
    whose LED channel stays above -2 is left as it is. *)
Example corrupted_table_corrected :
  PrimFloat.ltb (series_min [-3; 2; -3]%float) (-2)%float = true ∧
  PrimFloat.ltb (series_min [0; 1; 1; 0; 0; 1; 0]%float) (-2)%float = false ∧
  correct_led two_pulse_table = Ok two_pulse_table ∧
  correct_led corrupted_table
    = Ok (df_setitem corrupted_table LED_key [0; 2; 0]%float) ∧
  _extract_action_labels threshold_binarise demo_argsort session_one_trial corrupted_table false
    = Ok [[4; 1]; [0; 2]; [0; 0]].
Proof. vm_compute. done. Qed.

(** C6: a table that has the cue only under [Back_Sensor] makes the routine
    fail with a [KeyError] for the LED key, raised by the lookup of line 66,
    although the rest of the routine, run on that very table, reads the older
    key and labels the trial. *)
Theorem back_sensor_only_table_fails
    (binarise : DataFrame float → DataFrame Z)
    (np_argsort : Argsort) (self : Reach) (plot : bool) :
  _extract_action_labels binarise np_argsort self back_sensor_table plot
    = Raise (KeyError LED_key) ∧
  read_cue_leds (threshold_binarise back_sensor_table) = Ok [0; 1; 1; 0] ∧
  label_events threshold_binarise demo_argsort session_one_trial back_sensor_table false
    = Ok [[4; 1]; [0; 0]; [0; 2]; [0; 0]].
Proof.
  split; [|by vm_compute].
  unfold _extract_action_labels. by rewrite correct_led_KeyError.
Qed.

(** C8: the values of the public constants. *)
Theorem action_label_constants :
  ActionLabels.miss_left = 1 ∧ ActionLabels.miss_right = 2 ∧
  ActionLabels.correct_left = 4 ∧ ActionLabels.correct_right = 8 ∧
  ActionLabels.incorrect_left = 16 ∧ ActionLabels.incorrect_right = 32 ∧
  ActionLabels.naive_left_short = 64 ∧ ActionLabels.naive_left_long = 128 ∧
  ActionLabels.naive_right_short = 256 ∧ ActionLabels.naive_right_long = 512 ∧
  ActionLabels.naive_left
    = Z.lor ActionLabels.naive_left_short ActionLabels.naive_left_long ∧
  ActionLabels.naive_right
    = Z.lor ActionLabels.naive_right_short ActionLabels.naive_right_long ∧
  ActionLabels.naive_short
    = Z.lor ActionLabels.naive_left_short ActionLabels.naive_right_short ∧
  ActionLabels.naive_long
    = Z.lor ActionLabels.naive_left_long ActionLabels.naive_right_long ∧
  ActionLabels.naive_left = 192 ∧ ActionLabels.naive_right = 768 ∧
  ActionLabels.naive_short = 320 ∧ ActionLabels.naive_long = 640 ∧
  Events.led_on = 1 ∧ Events.led_off = 2 ∧
  (∀ attr v, (attr, v) ∈ ActionLabels.namespace → getattr_ActionLabels attr = Ok v).
Proof.
  repeat (split; [reflexivity|]).
  intros attr v Hin. unfold ActionLabels.namespace in Hin.
  repeat (apply elem_of_cons in Hin as [[= -> ->]|Hin]; [by vm_compute|]).
  by apply elem_of_nil in Hin.
Qed.

(** * Properties of the aggregator *)

Section ExperimentProperties.
Context {Path Metadata Session Args Units Table : Type}.

Variable mkPath : string → Path.
Variable path_exists : Path → bool.
Variable joinpath : Path → string → Path.
Variable get_sessions :
  list string → Path → option Path → result (list (@session_info Path Metadata)).

Variable session_align_trials :
  Session → Args → option Units → result Table.
Variable session_get_spike_widths : Session → option Units → result Table.
Variable session_get_spike_waveforms :
  Session → option Units → result Table.
Variable session_get_aligned_spike_rate_CI :
  Session → Args → option Units → result Table.
Variable pandas_concat : list Table → list nat → list string → result Table.

Abbreviation Exp := (@Experiment Path Metadata Session).

(** ** Construction and indexing *)

Lemma for_in_snoc_Ok {A B} (f : A → result B) (l : list A) (acc r : list B) :
  for_in (λ acc x, y ← f x; Ok (acc ++ [y])) l acc = Ok r ↔
  ∃ ys, Forall2 (λ x y, f x = Ok y) l ys ∧ r = acc ++ ys.
Proof.
  revert acc. induction l as [|x l IH]; intros acc; simpl.
  - split.
    + intros [= <-]. exists []. split; [constructor|]. by rewrite app_nil_r.
    + intros (ys & ->%Forall2_nil_inv_l & ->). by rewrite app_nil_r.
  - split.
    + intros H. inv_bind H. inv_bind Hx. injection Hx as <-.
      apply IH in H as (ys & Hall & ->). exists (x1 :: ys). split.
      * by constructor.
      * by rewrite <- app_assoc.
    + intros (ys & Hall & ->).
      apply Forall2_cons_inv_l in Hall as (y & ys' & Hy & Hall & ->).
      rewrite Hy. simpl. apply IH. exists ys'. split; [done|].
      by rewrite <- app_assoc.
Qed.

Lemma init_Ok_inv (ids : string + list string)
    (cls : string → Metadata → Path → result Session) (dd : string) (md : option string)
    (e : Exp) :
  __init__ mkPath path_exists joinpath get_sessions ids cls dd md = Ok e →
  path_exists (mkPath dd) = true ∧
  data_dir e = mkPath dd ∧
  mouse_ids e = match ids with inl id => [id] | inr l => l end ∧
  ∃ found,
    get_sessions (mouse_ids e) (data_dir e) (meta_dir e) = Ok found ∧
    Forall2 (λ info s, cls (info_name info) (info_metadata info) (info_data_dir info) = Ok s)
      found (sessions e).
Proof.
  unfold __init__. intros H.
  destruct (path_exists (mkPath dd)); [|done]. simpl in H.
  inv_bind H. rename x into self_meta_dir. inv_bind H. rename x into found.
  inv_bind H. rename x into built. injection H as <-. simpl.
  do 3 (split; [done|]). exists found. split; [done|].
  apply for_in_snoc_Ok in Hx1 as (ys & Hall & ->). done.
Qed.

(** C7: the length of a constructed experiment is the number of sessions that
    were discovered, and indexing it with [i], [0 ≤ i < len], gives the session
    object built from the i-th discovered session. *)
Theorem experiment_len_getitem (ids : string + list string)
    (cls : string → Metadata → Path → result Session) (dd : string) (md : option string)
    (e : Exp) :
  __init__ mkPath path_exists joinpath get_sessions ids cls dd md = Ok e →
  ∃ found,
    get_sessions (mouse_ids e) (data_dir e) (meta_dir e) = Ok found ∧
    __len__ e = length found ∧
    ∀ i : nat, (i < __len__ e)%nat →
      ∃ info s,
        found !! i = Some info ∧
        cls (info_name info) (info_metadata info) (info_data_dir info) = Ok s ∧
        __getitem__ e (Z.of_nat i) = Ok s.
Proof.
  intros (_ & _ & _ & found & Hfound & Hall)%init_Ok_inv.
  exists found. split; [done|].
  pose proof (Forall2_length _ _ _ Hall) as Hlen.
  unfold __len__, __getitem__, list_getitem.
  split; [done|]. intros i Hi.
  destruct (lookup_lt_is_Some_2 found i) as [info Hinfo]; [lia|].
  destruct (Forall2_lookup_l _ _ _ _ _ Hall Hinfo) as (s & Hs & Hcls).
  exists info, s. do 2 (split; [done|]).
  replace (Z.of_nat i <? 0) with false by (symmetry; apply Z.ltb_ge; lia).
  replace (0 <=? Z.of_nat i) with true by (symmetry; apply Z.leb_le; lia).
  replace (Z.of_nat i <? Z.of_nat _) with true by (symmetry; apply Z.ltb_lt; lia).
  simpl. by rewrite Nat2Z.id, Hs.
Qed.


(** ** Batch methods *)

Lemma Experiment_getattr_sessons (self : Exp) :
  Experiment_getattr self "sessons" = Raise (AttributeError "sessons").
Proof. reflexivity. Qed.

(** C5: the three methods that loop over [self.sessons] raise an
    [AttributeError] for every experiment and every argument, and
    [align_trials] on an experiment without sessions raises the [ValueError] of
    [pd.concat]. *)
Theorem batch_methods_raise (self : Exp) (args : Args)
    (units : option (list Units)) :
  get_spike_widths session_get_spike_widths pandas_concat self units
    = Raise (AttributeError "sessons") ∧
  get_spike_waveforms session_get_spike_waveforms pandas_concat self units
    = Raise (AttributeError "sessons") ∧
  get_aligned_spike_rate_CI session_get_aligned_spike_rate_CI pandas_concat self args units
    = Raise (AttributeError "sessons") ∧
  align_trials session_align_trials pandas_concat
    (mkExperiment (behaviour self) (mouse_ids self) (data_dir self) (meta_dir self)
       (raw self) (processed self) (interim self) [])
    args units
    = Raise (ValueError "No objects to concatenate").
Proof.
  unfold get_spike_widths, get_spike_waveforms, get_aligned_spike_rate_CI.
  rewrite Experiment_getattr_sessons. done.
Qed.

Lemma align_trials_loop (args : Args) (l : list Session) (tables acc : list Table)
    (i : nat) :
  Forall2 (λ s t, session_align_trials s args None = Ok t) l tables →
  for_enumerate
    (λ trials (i : nat) session,
       if truthy_list (None : option (list Units)) then
         u ← units_getitem None i;
         t ← session_align_trials session args (Some u);
         Ok (trials ++ [t])
       else
         t ← session_align_trials session args None;
         Ok (trials ++ [t]))
    i l acc
  = Ok (acc ++ tables).
Proof.
  intros H. revert acc i. induction H as [|s t l tables Hs _ IH]; intros acc i; simpl.
  - by rewrite app_nil_r.
  - rewrite Hs. simpl. rewrite IH. by rewrite <- app_assoc.
Qed.

End ExperimentProperties.

Lemma experiment_len_getitem_witness :
  ∃ found,
    demo_get_sessions (mouse_ids demo_experiment) (data_dir demo_experiment)
      (meta_dir demo_experiment) = Ok found ∧
    __len__ demo_experiment = length found ∧
    ∀ i : nat, (i < __len__ demo_experiment)%nat →
      ∃ info s,
        found !! i = Some info ∧
        demo_behaviour (info_name info) (info_metadata info) (info_data_dir info) = Ok s ∧
        __getitem__ demo_experiment (Z.of_nat i) = Ok s.
Proof.
  apply (experiment_len_getitem id demo_exists demo_joinpath demo_get_sessions
           (inr ["m1"; "m2"]) demo_behaviour "/data" None demo_experiment).
  reflexivity.
Defined.


(** The four table-valued methods called on the experiment of the small
    world, with per-session tables of one column under a three-level label. *)
Example demo_batch_methods :
  let ok_table : string → option unit → result (list (list Z * string)) :=
    λ name _, Ok [([0; 1; 0], name)] in
  get_spike_widths ok_table demo_concat demo_experiment None
    = Raise (AttributeError "sessons") ∧
  get_spike_waveforms ok_table demo_concat demo_experiment None
    = Raise (AttributeError "sessons") ∧
  get_aligned_spike_rate_CI (λ s (_ : unit), ok_table s) demo_concat demo_experiment () None
    = Raise (AttributeError "sessons") ∧
  align_trials (λ s (_ : unit), ok_table s) demo_concat demo_experiment () None
    = Ok [([0; 0; 1; 0], "m1"); ([1; 0; 1; 0], "m2")].
Proof. repeat split. Qed.

(** * Further properties of the extractor *)

(** ** The plot flag and the sync channel *)

(** X1: the plot flag only matters once everything else has succeeded: a call
    with [plot=True] raises whatever the call with [plot=False] raises, and
    where that call returns labels it raises the [NameError] of the undefined
    [back_sensor_signal]; it never returns. *)
Theorem plot_flag_never_returns
    (binarise : DataFrame float → DataFrame Z)
    (np_argsort : Argsort) (self : Reach) (tbl : DataFrame float) :
  _extract_action_labels binarise np_argsort self tbl true =
    match _extract_action_labels binarise np_argsort self tbl false with
    | Ok _ => Raise (NameError "back_sensor_signal")
    | Raise e => Raise e
    end.
Proof.
  unfold _extract_action_labels.
  destruct (correct_led tbl) as [t'|e]; [|done]. rewrite !bind_Ok_l.
  unfold label_events. cbv zeta.
  destruct (read_cue_leds (binarise t')) as [cue|e]; [|done]. rewrite !bind_Ok_l.
  cbv beta.
  destruct (np_set_many _ (led_onsets_of cue) _ _) as [arr1|e]; [|done].
  rewrite !bind_Ok_l. cbv beta.
  destruct (np_set_many arr1 _ _ _) as [arr2|e]; [|done]. rewrite !bind_Ok_l.
  destruct (negb (bool_decide _)); [done|].
  destruct (np_sub _ _) as [d|e]; [|done]. rewrite !bind_Ok_l. cbv beta.
  destruct (negb (np_array_equal _ _)); [done|].
  by destruct (for_enumerate _ _ _ _).
Qed.

(** X2: when the minimum of the LED channel is below -2 and the table has no
    sync channel, the routine raises the [KeyError] of the sync key. *)
Theorem missing_sync_channel_raises
    (binarise : DataFrame float → DataFrame Z)
    (np_argsort : Argsort) (self : Reach)
    (tbl : DataFrame float) (plot : bool) (led : list float) :
  columns tbl !! LED_key = Some led →
  PrimFloat.ltb (series_min led) (-2)%float = true →
  columns tbl !! sync_key = None →
  _extract_action_labels binarise np_argsort self tbl plot = Raise (KeyError sync_key).
Proof.
  intros Hled Hmin Hsync. unfold _extract_action_labels, correct_led, df_getitem.
  by rewrite Hled, bind_Ok_l, Hmin, bind_Ok_l, Hsync.
Qed.

Lemma missing_sync_channel_raises_witness :
  _extract_action_labels threshold_binarise demo_argsort session_one_trial
    (mkDataFrame 2 {[ LED_key := [-3; 2]%float ]}) false
  = Raise (KeyError sync_key).
Proof.
  apply (missing_sync_channel_raises threshold_binarise demo_argsort session_one_trial
           (mkDataFrame 2 {[ LED_key := [-3; 2]%float ]}) false [-3; 2]%float);
    vm_compute; reflexivity.
Defined.

(** ** Rising and falling edges of a binary trace *)

Lemma edges_cons (a b : Z) (l : list Z) (x y : Z) (base : nat) :
  np_where_from base (eq_and_eq (init_slice (a :: b :: l)) x (tail_slice (a :: b :: l)) y)
  = (if (a =? x) && (b =? y) then [base] else [])
    ++ np_where_from (S base) (eq_and_eq (init_slice (b :: l)) x (tail_slice (b :: l)) y).
Proof.
  unfold init_slice, tail_slice, eq_and_eq. simpl. rewrite Nat.sub_0_r.
  by destruct ((a =? x) && (b =? y)).
Qed.

Lemma edges_singleton (a x y : Z) (base : nat) :
  np_where_from base (eq_and_eq (init_slice [a]) x (tail_slice [a]) y) = [].
Proof. reflexivity. Qed.

Lemma np_where_from_shift (mask : list bool) (base : nat) :
  np_where_from (S base) mask = S <$> np_where_from base mask.
Proof.
  revert base. induction mask as [|b mask IH]; intros base; simpl; [done|].
  destruct b; simpl; by rewrite IH.
Qed.

Lemma edge_counts_telescope (l : list Z) (a : Z) (base : nat) :
  Forall (λ v, v = 0 ∨ v = 1) (a :: l) →
  Z.of_nat (length (np_where_from base
                      (eq_and_eq (init_slice (a :: l)) 0 (tail_slice (a :: l)) 1)))
  - Z.of_nat (length (np_where_from base
                        (eq_and_eq (init_slice (a :: l)) 1 (tail_slice (a :: l)) 0)))
  = default a (last (a :: l)) - a.
Proof.
  revert a base. induction l as [|b l IH]; intros a base Hbin.
  - rewrite !edges_singleton. simpl. lia.
  - rewrite !edges_cons, !length_app.
    apply Forall_cons in Hbin as [Ha Hbin].
    specialize (IH b (S base) Hbin).
    assert (default a (last (a :: b :: l)) = default b (last (b :: l))) as ->.
    { rewrite last_cons_cons.
      destruct (last_is_Some (b :: l)) as [_ [v ->]]; done. }
    pose proof Hbin as [Hb _]%Forall_cons.
    destruct Ha as [-> | ->], Hb as [-> | ->]; simpl in *; lia.
Qed.

(** X3: in a trace of zeros and ones, the number of rising edges minus the
    number of falling edges is the last sample minus the first; so the two
    counts differ by at most one, and they are equal when the trace ends at the
    level it starts at. *)
Theorem binary_trace_edge_counts (cue : list Z) (first final : Z) :
  Forall (λ v, v = 0 ∨ v = 1) cue →
  head cue = Some first → last cue = Some final →
  Z.of_nat (length (led_onsets_of cue)) - Z.of_nat (length (led_offsets_of cue))
    = final - first.
Proof.
  intros Hbin Hfirst Hlast. destruct cue as [|a l]; [done|].
  injection Hfirst as ->. unfold led_onsets_of, led_offsets_of, np_where.
  rewrite (edge_counts_telescope l first 0 Hbin). by rewrite Hlast.
Qed.

Lemma binary_trace_edge_counts_witness :
  Z.of_nat (length (led_onsets_of [0; 1; 1; 0; 0; 1])) -
  Z.of_nat (length (led_offsets_of [0; 1; 1; 0; 0; 1])) = 1 - 0.
Proof.
  apply (binary_trace_edge_counts [0; 1; 1; 0; 0; 1] 0 1).
  - repeat (apply Forall_cons_2; [simpl; lia|]). apply Forall_nil_2.
  - reflexivity.
  - reflexivity.
Defined.

Section EdgeOrder.
Local Abbreviation rising base cue :=
  (np_where_from base (eq_and_eq (init_slice cue) 0 (tail_slice cue) 1)).
Local Abbreviation falling base cue :=
  (np_where_from base (eq_and_eq (init_slice cue) 1 (tail_slice cue) 0)).

(** Rising and falling edges alternate.  In a trace that starts low every
    falling edge has its rising edge before it and the next rising edge after
    it; in a trace that starts high it is the other way round. *)
Lemma edges_interleave (l : list Z) (a : Z) (base : nat) :
  Forall (λ v, v = 0 ∨ v = 1) (a :: l) →
  (a = 0 →
     (∀ i f, falling base (a :: l) !! i = Some f →
        ∃ n, rising base (a :: l) !! i = Some n ∧ (n < f)%nat) ∧
     (∀ i n, rising base (a :: l) !! S i = Some n →
        ∃ f, falling base (a :: l) !! i = Some f ∧ (f < n)%nat)) ∧
  (a = 1 →
     (∀ i n, rising base (a :: l) !! i = Some n →
        ∃ f, falling base (a :: l) !! i = Some f ∧ (f < n)%nat) ∧
     (∀ i f, falling base (a :: l) !! S i = Some f →
        ∃ n, rising base (a :: l) !! i = Some n ∧ (n < f)%nat)).
Proof.
  revert a base. induction l as [|b l IH]; intros a base Hbin.
  - rewrite !edges_singleton. by repeat split; intros.
  - apply Forall_cons in Hbin as [Ha Hbin].
    pose proof Hbin as [Hb _]%Forall_cons.
    destruct (IH b (S base) Hbin) as [IH0 IH1].
    pose proof (np_where_from_lower
                  (eq_and_eq (init_slice (b :: l)) 0 (tail_slice (b :: l)) 1) (S base))
      as Hon.
    pose proof (np_where_from_lower
                  (eq_and_eq (init_slice (b :: l)) 1 (tail_slice (b :: l)) 0) (S base))
      as Hoff.
    rewrite Forall_forall in Hon, Hoff.
    rewrite !edges_cons.
    destruct Ha as [-> | ->], Hb as [-> | ->]; simpl.
    + split; [intros _|done]. by apply IH0.
    + split; [intros _|done]. destruct (IH1 eq_refl) as [HA HB]. split.
      * intros [|i] f Hf.
        -- exists base. split; [done|].
           assert (f ∈ falling (S base) (1 :: l)) as Hin%Hoff
             by (apply list_elem_of_lookup; eauto). lia.
        -- apply HB in Hf as (n & Hn & Hlt). eauto.
      * intros i n Hn. by apply HA.
    + split; [done|intros _]. destruct (IH0 eq_refl) as [HA HB]. split.
      * intros [|i] n Hn.
        -- exists base. split; [done|].
           assert (n ∈ rising (S base) (0 :: l)) as Hin%Hon
             by (apply list_elem_of_lookup; eauto). lia.
        -- apply HB in Hn as (f & Hf & Hlt). eauto.
      * intros i f Hf. by apply HA.
    + split; [done|intros _]. by apply IH1.
Qed.
End EdgeOrder.

Lemma edge_counts_equal (cue : list Z) (a : Z) :
  Forall (λ v, v = 0 ∨ v = 1) cue → head cue = Some a → last cue = Some a →
  length (led_offsets_of cue) = length (led_onsets_of cue).
Proof.
  intros Hbin Hhead Hlast. destruct cue as [|b l]; [done|]. injection Hhead as ->.
  pose proof (edge_counts_telescope l a 0 Hbin) as H. rewrite Hlast in H. simpl in H.
  unfold led_onsets_of, led_offsets_of, np_where. lia.
Qed.

(** X4: in a trace of zeros and ones that starts with the LED off, the i-th
    falling edge lies after the i-th rising edge and before the next rising
    edge; when the trace also ends with the LED off, the subtraction of
    line 91 succeeds and gives one duration per onset, every one positive. *)
Theorem cue_durations_positive (cue : list Z) :
  Forall (λ v, v = 0 ∨ v = 1) cue → head cue = Some 0 →
  (∀ i on off,
     led_onsets_of cue !! i = Some on → led_offsets_of cue !! i = Some off →
     (on < off)%nat ∧
     ∀ on', led_onsets_of cue !! S i = Some on' → (off < on')%nat) ∧
  (last cue = Some 0 →
     ∃ d, np_sub (led_offsets_of cue) (led_onsets_of cue) = Ok d ∧
          length d = length (led_onsets_of cue) ∧
          Forall (λ x, 0 < x) d).
Proof.
  intros Hbin Hhead.
  assert (∀ i on off,
    led_onsets_of cue !! i = Some on → led_offsets_of cue !! i = Some off →
    (on < off)%nat ∧
    ∀ on', led_onsets_of cue !! S i = Some on' → (off < on')%nat) as Hlt.
  { destruct cue as [|a l]; [done|]. injection Hhead as ->.
    destruct (edges_interleave l 0 0 Hbin) as [[HA HB] _]; [done|].
    intros i on off Hon Hoff. split.
    - apply HA in Hoff as (n & Hn & Hlt).
      unfold led_onsets_of, np_where in Hon. congruence.
    - intros on' Hon'. apply HB in Hon' as (f & Hf & Hlt').
      unfold led_offsets_of, np_where in Hoff. congruence. }
  split; [exact Hlt|]. intros Hlast.
  pose proof (edge_counts_equal cue 0 Hbin Hhead Hlast) as Hlen.
  eexists. split; [by apply np_sub_same_length|]. split.
  - rewrite length_zip_with. lia.
  - apply Forall_forall. intros d (i & Hd)%list_elem_of_lookup.
    apply lookup_zip_with_Some in Hd as (off & on & -> & Hoff & Hon).
    destruct (Hlt i on off Hon Hoff) as [? _]. lia.
Qed.

Lemma cue_durations_positive_witness :
  (∀ i on off,
     led_onsets_of [0; 1; 1; 0; 0; 1; 0] !! i = Some on →
     led_offsets_of [0; 1; 1; 0; 0; 1; 0] !! i = Some off →
     (on < off)%nat ∧
     ∀ on', led_onsets_of [0; 1; 1; 0; 0; 1; 0] !! S i = Some on' → (off < on')%nat) ∧
  (last [0; 1; 1; 0; 0; 1; 0] = Some 0 →
     ∃ d, np_sub (led_offsets_of [0; 1; 1; 0; 0; 1; 0])
            (led_onsets_of [0; 1; 1; 0; 0; 1; 0]) = Ok d ∧
          length d = length (led_onsets_of [0; 1; 1; 0; 0; 1; 0]) ∧
          Forall (λ x, 0 < x) d).
Proof.
  apply (cue_durations_positive [0; 1; 1; 0; 0; 1; 0]).
  - repeat (apply Forall_cons_2; [simpl; lia|]). apply Forall_nil_2.
  - reflexivity.
Defined.

(** X5: in a trace of zeros and ones that starts with the LED on, the i-th
    falling edge lies before the i-th rising edge; when the trace also ends
    with the LED on, the subtraction of line 91 succeeds, pairs every onset
    with the end of the pulse before it, and every duration it gives is
    negative. *)
Theorem trace_starting_high_durations_negative (cue : list Z) :
  Forall (λ v, v = 0 ∨ v = 1) cue → head cue = Some 1 →
  (∀ i on, led_onsets_of cue !! i = Some on →
     ∃ off, led_offsets_of cue !! i = Some off ∧ (off < on)%nat) ∧
  (last cue = Some 1 →
     ∃ d, np_sub (led_offsets_of cue) (led_onsets_of cue) = Ok d ∧
          length d = length (led_onsets_of cue) ∧
          Forall (λ x, x < 0) d).
Proof.
  intros Hbin Hhead.
  assert (∀ i on, led_onsets_of cue !! i = Some on →
     ∃ off, led_offsets_of cue !! i = Some off ∧ (off < on)%nat) as HC.
  { destruct cue as [|a l]; [done|]. injection Hhead as ->.
    by destruct (edges_interleave l 1 0 Hbin) as [_ [HC HD]]. }
  split; [exact HC|]. intros Hlast.
  pose proof (edge_counts_equal cue 1 Hbin Hhead Hlast) as Hlen.
  eexists. split; [by apply np_sub_same_length|]. split.
  - rewrite length_zip_with. lia.
  - apply Forall_forall. intros d (i & Hd)%list_elem_of_lookup.
    apply lookup_zip_with_Some in Hd as (off & on & -> & Hoff & Hon).
    apply HC in Hon as (f & Hf & Hlt).
    assert (f = off) as -> by congruence. lia.
Qed.

Lemma trace_starting_high_durations_negative_witness :
  (∀ i on, led_onsets_of [1; 0; 0; 1] !! i = Some on →
     ∃ off, led_offsets_of [1; 0; 0; 1] !! i = Some off ∧ (off < on)%nat) ∧
  (last [1; 0; 0; 1] = Some 1 →
     ∃ d, np_sub (led_offsets_of [1; 0; 0; 1]) (led_onsets_of [1; 0; 0; 1]) = Ok d ∧
          length d = length (led_onsets_of [1; 0; 0; 1]) ∧
          Forall (λ x, x < 0) d).
Proof.
  apply (trace_starting_high_durations_negative [1; 0; 0; 1]).
  - repeat (apply Forall_cons_2; [simpl; lia|]). apply Forall_nil_2.
  - reflexivity.
Defined.

(** ** Outcomes of the two checks *)

(** On a readable trace that fits the table, the routine is the two checks
    followed by the loop, and the loop succeeds whenever it is reached with as
    many onsets as trials. *)
Lemma extract_after_marking
    (binarise : DataFrame float → DataFrame Z)
    (np_argsort : Argsort) (self : Reach)
    (tbl t' : DataFrame float) (cue : list Z) (plot : bool) :
  correct_led tbl = Ok t' →
  read_cue_leds (binarise t') = Ok cue →
  (length cue ≤ index_len (binarise t'))%nat →
  ∃ arr1 arr2,
    np_set_many (np_zeros (index_len (binarise t')) 2) (led_onsets_of cue) 1 Events.led_on
      = Ok arr1 ∧
    np_set_many arr1 (led_offsets_of cue) 1 Events.led_off = Ok arr2 ∧
    (length (led_onsets_of cue) = length (metadata_trials self) →
     ∃ labels,
       for_enumerate (stamp_action (led_onsets_of cue)) 0%nat (metadata_trials self) arr2
         = Ok labels) ∧
    _extract_action_labels binarise np_argsort self tbl plot =
      if negb (bool_decide (length (led_onsets_of cue) = length (metadata_trials self)))
      then Raise (PixelsError (trial_count_msg self))
      else
        d ← np_sub (led_offsets_of cue) (led_onsets_of cue);
        if negb (np_array_equal (np_argsort (int_array d))
                   (np_argsort (number_list (cue_duration <$> metadata_trials self))))
        then Raise (PixelsError (trial_data_msg self))
        else
          labels ← for_enumerate (stamp_action (led_onsets_of cue)) 0%nat
                     (metadata_trials self) arr2;
          if plot then Raise (NameError "back_sensor_signal") else Ok labels.
Proof.
  intros Hcorr Hcue Hlen.
  destruct (mark_events_is_Ok cue _ Hlen) as (arr1 & arr2 & H1 & H2).
  destruct (mark_events_spec cue _ arr1 arr2 H1 H2) as (Hsh2 & _).
  exists arr1, arr2. do 2 (split; [done|]). split.
  - intros Hon.
    apply (stamp_loop_is_Ok (led_onsets_of cue) (metadata_trials self) 0 arr2 _ 2 Hsh2);
      [lia|].
    intros k Hk. destruct (lookup_lt_is_Some_2 (led_onsets_of cue) k) as [onset Honset];
      [lia|]. exists onset. split; [done|].
    assert (onset ∈ led_onsets_of cue) as Hin%led_onsets_lt
      by (apply list_elem_of_lookup; eauto). lia.
  - unfold _extract_action_labels. rewrite Hcorr, bind_Ok_l.
    by apply label_events_unfold with (arr1 := arr1).
Qed.

(** X6: on a trace of zeros and ones that starts and ends with the LED off (in
    a table with a row per sample), the default call either returns the labels
    or raises the domain error; no other exception escapes. *)
Theorem closed_binary_trace_ok_or_domain_error
    (binarise : DataFrame float → DataFrame Z)
    (np_argsort : Argsort) (self : Reach)
    (tbl t' : DataFrame float) (cue : list Z) :
  correct_led tbl = Ok t' →
  read_cue_leds (binarise t') = Ok cue →
  (length cue ≤ index_len (binarise t'))%nat →
  Forall (λ v, v = 0 ∨ v = 1) cue → head cue = Some 0 → last cue = Some 0 →
  (∃ labels, _extract_action_labels binarise np_argsort self tbl false = Ok labels) ∨
  raises_PixelsError (_extract_action_labels binarise np_argsort self tbl false).
Proof.
  intros Hcorr Hcue Hlen Hbin Hhead Hlast.
  destruct (extract_after_marking binarise np_argsort self tbl t' cue false Hcorr Hcue Hlen)
    as (arr1 & arr2 & _ & _ & Hloop & ->).
  case_bool_decide as Hon; simpl negb; cbv iota; [|right; by eexists].
  assert (length (led_offsets_of cue) = length (led_onsets_of cue)) as Hoff.
  { destruct cue as [|a l]; [done|]. injection Hhead as ->.
    pose proof (edge_counts_telescope l 0 0 Hbin) as Htel.
    rewrite Hlast in Htel. simpl in Htel.
    unfold led_onsets_of, led_offsets_of, np_where. lia. }
  rewrite np_sub_same_length, bind_Ok_l by done. cbv beta.
  destruct (negb _); [right; by eexists|].
  destruct (Hloop Hon) as [labels ->]. left. by eexists.
Qed.

Lemma closed_binary_trace_ok_or_domain_error_witness :
  (∃ labels,
     _extract_action_labels threshold_binarise demo_argsort session_short_long two_pulse_table false
       = Ok labels) ∨
  raises_PixelsError
    (_extract_action_labels threshold_binarise demo_argsort session_short_long
          two_pulse_table false).
Proof.
  apply (closed_binary_trace_ok_or_domain_error threshold_binarise demo_argsort session_short_long
           two_pulse_table two_pulse_table [0; 1; 1; 0; 0; 1; 0]).
  - vm_compute. reflexivity.
  - vm_compute. reflexivity.
  - vm_compute. lia.
  - repeat (apply Forall_cons_2; [simpl; lia|]). apply Forall_nil_2.
  - reflexivity.
  - reflexivity.
Defined.

(** X7: when the trace has as many rising edges as the metadata has trials but
    another number of falling edges, and neither number is one, the routine
    raises numpy's [ValueError] for the subtraction of line 91, not the domain
    error. *)
Theorem unpaired_edges_raise_ValueError
    (binarise : DataFrame float → DataFrame Z)
    (np_argsort : Argsort) (self : Reach)
    (tbl t' : DataFrame float) (cue : list Z) (plot : bool) :
  correct_led tbl = Ok t' →
  read_cue_leds (binarise t') = Ok cue →
  (length cue ≤ index_len (binarise t'))%nat →
  length (led_onsets_of cue) = length (metadata_trials self) →
  length (led_offsets_of cue) ≠ length (led_onsets_of cue) →
  length (led_offsets_of cue) ≠ 1%nat → length (led_onsets_of cue) ≠ 1%nat →
  _extract_action_labels binarise np_argsort self tbl plot
    = Raise (ValueError "operands could not be broadcast together").
Proof.
  intros Hcorr Hcue Hlen Hon Hne Hoff1 Hon1.
  destruct (extract_after_marking binarise np_argsort self tbl t' cue plot Hcorr Hcue Hlen)
    as (arr1 & arr2 & _ & _ & _ & ->).
  rewrite bool_decide_true by done. simpl negb. cbv iota.
  unfold np_sub. rewrite bool_decide_false by done.
  destruct (led_offsets_of cue) as [|x [|x' a]], (led_onsets_of cue) as [|y [|y' b]];
    done.
Qed.

Lemma unpaired_edges_raise_ValueError_witness :
  _extract_action_labels threshold_binarise demo_argsort
    (mkReach "s5" [mkTrial LEFT MISSED (JInt 1); mkTrial LEFT MISSED (JInt 1);
                   mkTrial LEFT MISSED (JInt 1)])
    (mkDataFrame 6 {[ LED_key := [0; 1; 0; 1; 0; 1]%float ]}) false
  = Raise (ValueError "operands could not be broadcast together").
Proof.
  apply (unpaired_edges_raise_ValueError threshold_binarise demo_argsort _
           (mkDataFrame 6 {[ LED_key := [0; 1; 0; 1; 0; 1]%float ]})
           (mkDataFrame 6 {[ LED_key := [0; 1; 0; 1; 0; 1]%float ]})
           [0; 1; 0; 1; 0; 1] false).
  - vm_compute. reflexivity.
  - vm_compute. reflexivity.
  - vm_compute. lia.
  - reflexivity.
  - vm_compute. lia.
  - vm_compute. lia.
  - vm_compute. lia.
Defined.

(** ** What a returned array holds *)

Lemma extract_Ok_codes
    (binarise : DataFrame float → DataFrame Z)
    (np_argsort : Argsort) (self : Reach)
    (tbl : DataFrame float) (plot : bool) (labels : ndarray) :
  _extract_action_labels binarise np_argsort self tbl plot = Ok labels →
  ∃ t' cue,
    correct_led tbl = Ok t' ∧ read_cue_leds (binarise t') = Ok cue ∧
    length (led_onsets_of cue) = length (metadata_trials self) ∧
    has_shape labels (index_len (binarise t')) 2 ∧
    (∀ j, (j < index_len (binarise t'))%nat → j ∉ led_onsets_of cue →
          np_get labels j 0 = Some 0) ∧
    (∀ i t onset, metadata_trials self !! i = Some t →
       led_onsets_of cue !! i = Some onset →
       np_get labels onset 0 = Some (bitmask_of (spout t) (outcome t))).
Proof.
  intros H. unfold _extract_action_labels in H. inv_bind H. rename x into t'.
  apply label_events_Ok_inv in H
    as (cue & arr1 & arr2 & d & Hcue & H1 & H2 & Hon & _ & _ & Hloop & _).
  destruct (mark_events_spec cue _ arr1 arr2 H1 H2) as (Hsh2 & _).
  destruct (stamped_labels_spec self cue _ arr1 arr2 labels H1 H2 Hloop) as (Hsh & Hspec).
  exists t', cue. do 4 (split; [done|]). split.
  - intros j Hj Hnot. by apply Hspec.
  - intros i t onset Ht Honset.
    by apply (stamp_loop_values _ _ _ _ _ _ _ (NoDup_led_onsets cue) Hloop Hsh2 i).
Qed.

(** X8: whenever the routine returns, the trace has as many rising edges as
    the metadata has trials, the nonzero entries of column 0 sit at exactly
    those rising edges, one per trial, and the entry at the i-th rising edge is
    the bitmask of the i-th trial. *)
Theorem returned_labels_one_code_per_trial
    (binarise : DataFrame float → DataFrame Z)
    (np_argsort : Argsort) (self : Reach)
    (tbl : DataFrame float) (plot : bool) (labels : ndarray) :
  _extract_action_labels binarise np_argsort self tbl plot = Ok labels →
  ∃ t' cue,
    correct_led tbl = Ok t' ∧ read_cue_leds (binarise t') = Ok cue ∧
    np_flatnonzero labels 0 ≡ₚ led_onsets_of cue ∧
    length (np_flatnonzero labels 0) = length (metadata_trials self) ∧
    ∀ i t, metadata_trials self !! i = Some t →
      ∃ onset, led_onsets_of cue !! i = Some onset ∧
               np_get labels onset 0 = Some (bitmask_of (spout t) (outcome t)).
Proof.
  intros (t' & cue & Hcorr & Hcue & Hon & Hsh & Hzero & Hcode)%extract_Ok_codes.
  exists t', cue. do 2 (split; [done|]).
  assert (∀ i t, metadata_trials self !! i = Some t →
     ∃ onset, led_onsets_of cue !! i = Some onset ∧
              np_get labels onset 0 = Some (bitmask_of (spout t) (outcome t))) as Hcodes.
  { intros i t Ht.
    destruct (lookup_lt_is_Some_2 (led_onsets_of cue) i) as [onset Honset].
    { apply lookup_lt_Some in Ht. lia. }
    exists onset. split; [done|]. by apply (Hcode i). }
  assert (np_flatnonzero labels 0 ≡ₚ led_onsets_of cue) as Hperm.
  { apply NoDup_Permutation; [apply NoDup_np_flatnonzero|apply NoDup_led_onsets|].
    intros j. rewrite elem_of_np_flatnonzero. split.
    - intros (v & Hget & Hv).
      destruct (np_get_Some_lt _ _ _ _ _ _ Hsh Hget) as [Hj _].
      destruct (decide (j ∈ led_onsets_of cue)) as [|Hnot]; [done|].
      rewrite (Hzero j Hj Hnot) in Hget. congruence.
    - intros (i & Hi)%list_elem_of_lookup.
      destruct (lookup_lt_is_Some_2 (metadata_trials self) i) as [t Ht].
      { apply lookup_lt_Some in Hi. lia. }
      destruct (Hcodes i t Ht) as (onset & Honset & Hget).
      assert (onset = j) as -> by congruence.
      eexists. split; [exact Hget|]. apply bitmask_of_nonzero. }
  split; [done|]. split; [by rewrite Hperm|done].
Qed.

Lemma returned_labels_one_code_per_trial_witness :
  ∃ t' cue,
    correct_led two_pulse_table = Ok t' ∧
    read_cue_leds (threshold_binarise t') = Ok cue ∧
    np_flatnonzero [[1; 1]; [0; 0]; [0; 2]; [0; 0]; [8; 1]; [0; 2]; [0; 0]] 0
      ≡ₚ led_onsets_of cue ∧
    length (np_flatnonzero [[1; 1]; [0; 0]; [0; 2]; [0; 0]; [8; 1]; [0; 2]; [0; 0]] 0)
      = length (metadata_trials session_long_short) ∧
    ∀ i t, metadata_trials session_long_short !! i = Some t →
      ∃ onset, led_onsets_of cue !! i = Some onset ∧
               np_get [[1; 1]; [0; 0]; [0; 2]; [0; 0]; [8; 1]; [0; 2]; [0; 0]] onset 0
                 = Some (bitmask_of (spout t) (outcome t)).
Proof.
  apply (returned_labels_one_code_per_trial threshold_binarise demo_argsort session_long_short
           two_pulse_table false).
  vm_compute. reflexivity.
Defined.

(** X9: a trace without a rising edge (and with at most one falling edge)
    gives labels without any action code when the metadata lists no trial, and
    the domain error about the number of trials when it lists one or more. *)
Theorem trace_without_onsets
    (binarise : DataFrame float → DataFrame Z)
    (np_argsort : Argsort) (self : Reach)
    (tbl t' : DataFrame float) (cue : list Z) :
  correct_led tbl = Ok t' →
  read_cue_leds (binarise t') = Ok cue →
  (length cue ≤ index_len (binarise t'))%nat →
  led_onsets_of cue = [] → (length (led_offsets_of cue) ≤ 1)%nat →
  (metadata_trials self = [] →
     ∃ labels, _extract_action_labels binarise np_argsort self tbl false = Ok labels ∧
               np_flatnonzero labels 0 = []) ∧
  (metadata_trials self ≠ [] →
     _extract_action_labels binarise np_argsort self tbl false
       = Raise (PixelsError (trial_count_msg self))).
Proof.
  intros Hcorr Hcue Hlen Hon Hoff.
  destruct (extract_after_marking binarise np_argsort self tbl t' cue false Hcorr Hcue Hlen)
    as (arr1 & arr2 & H1 & H2 & _ & Heq).
  destruct (mark_events_spec cue _ arr1 arr2 H1 H2) as (Hsh2 & Hmarks).
  rewrite Heq, Hon. split.
  - intros ->. exists arr2. split.
    + assert (np_sub (led_offsets_of cue) [] = Ok []) as ->.
      { destruct (led_offsets_of cue) as [|x [|x' a]]; [done..|simpl in Hoff; lia]. }
      simpl. unfold np_array_equal.
      by rewrite (bool_decide_true _ (argsort_empty np_argsort)).
    + apply elem_of_nil_inv. intros j (v & Hget & Hv)%elem_of_np_flatnonzero.
      destruct (np_get_Some_lt _ _ _ _ _ _ Hsh2 Hget) as [Hj _].
      destruct (Hmarks j Hj) as [Hzero _]. congruence.
  - intros Hne. rewrite bool_decide_false; [done|].
    destruct (metadata_trials self); done.
Qed.

Lemma trace_without_onsets_witness :
  (metadata_trials session_no_trials = [] →
     ∃ labels,
       _extract_action_labels threshold_binarise demo_argsort session_no_trials
         (mkDataFrame 3 {[ LED_key := [1; 0; 0]%float ]}) false = Ok labels ∧
       np_flatnonzero labels 0 = []) ∧
  (metadata_trials session_no_trials ≠ [] →
     _extract_action_labels threshold_binarise demo_argsort session_no_trials
       (mkDataFrame 3 {[ LED_key := [1; 0; 0]%float ]}) false
       = Raise (PixelsError (trial_count_msg session_no_trials))).
Proof.
  apply (trace_without_onsets threshold_binarise demo_argsort session_no_trials
           (mkDataFrame 3 {[ LED_key := [1; 0; 0]%float ]})
           (mkDataFrame 3 {[ LED_key := [1; 0; 0]%float ]}) [1; 0; 0]).
  - vm_compute. reflexivity.
  - vm_compute. reflexivity.
  - vm_compute. lia.
  - reflexivity.
  - vm_compute. lia.
Defined.

(** ** The action codes as bit masks *)

(** X10: the code of a trial is a single bit among the six lowest, and the
    codes of two trials share a bit exactly when the trials have the same side
    and the same outcome. *)
Theorem action_codes_are_distinct_bits (t t' : trial) :
  ∃ c c' k,
    action_code t = Ok c ∧ action_code t' = Ok c' ∧
    0 ≤ k < 6 ∧ c = Z.shiftl 1 k ∧
    (Z.land c c' ≠ 0 ↔ spout t = spout t' ∧ outcome t = outcome t').
Proof.
  rewrite !action_code_bitmask.
  destruct t as [s o d], t' as [s' o' d']. simpl.
  exists (bitmask_of s o), (bitmask_of s' o').
  destruct s, o.
  1: exists 0. 2: exists 2. 3: exists 4. 4: exists 1. 5: exists 3. 6: exists 5.
  all: do 2 (split; [reflexivity|]); split; [lia|]; split; [reflexivity|].
  all: destruct s', o'; vm_compute; split;
    first [ by intros _ | by intros [? ?] | by intros H; destruct H ].
Qed.

(** X11: a mask made by OR-ing the two sides of an outcome matches exactly the
    trials with that outcome ([miss_left | miss_right] matches all miss trials
    and no other), and a mask made by OR-ing the three outcomes of a side
    matches exactly the trials on that side. *)
Theorem ored_masks_select_trials (t : trial) :
  ∃ c, action_code t = Ok c ∧
    (Z.land c (Z.lor ActionLabels.miss_left ActionLabels.miss_right) ≠ 0
       ↔ outcome t = MISSED) ∧
    (Z.land c (Z.lor ActionLabels.correct_left ActionLabels.correct_right) ≠ 0
       ↔ outcome t = CORRECT) ∧
    (Z.land c (Z.lor ActionLabels.incorrect_left ActionLabels.incorrect_right) ≠ 0
       ↔ outcome t = INCORRECT) ∧
    (Z.land c (Z.lor ActionLabels.miss_left
                 (Z.lor ActionLabels.correct_left ActionLabels.incorrect_left)) ≠ 0
       ↔ spout t = LEFT) ∧
    (Z.land c (Z.lor ActionLabels.miss_right
                 (Z.lor ActionLabels.correct_right ActionLabels.incorrect_right)) ≠ 0
       ↔ spout t = RIGHT).
Proof.
  rewrite action_code_bitmask. eexists. split; [reflexivity|].
  destruct t as [[] [] d]; vm_compute; repeat split; done.
Qed.

(** X12: the routine never writes a code of the naive vocabulary: every entry
    of column 0 of a returned array is disjoint from the four [naive_*]
    unions. *)
Theorem returned_labels_never_naive
    (binarise : DataFrame float → DataFrame Z)
    (np_argsort : Argsort) (self : Reach)
    (tbl : DataFrame float) (plot : bool) (labels : ndarray) :
  _extract_action_labels binarise np_argsort self tbl plot = Ok labels →
  ∀ j v, np_get labels j 0 = Some v →
    Z.land v (Z.lor ActionLabels.naive_left ActionLabels.naive_right) = 0 ∧
    Z.land v (Z.lor ActionLabels.naive_short ActionLabels.naive_long) = 0.
Proof.
  intros (t' & cue & _ & _ & Hon & Hsh & Hzero & Hcode)%extract_Ok_codes j v Hget.
  destruct (np_get_Some_lt _ _ _ _ _ _ Hsh Hget) as [Hj _].
  destruct (decide (j ∈ led_onsets_of cue)) as [Hin|Hnot].
  - apply list_elem_of_lookup in Hin as [i Hi].
    destruct (lookup_lt_is_Some_2 (metadata_trials self) i) as [t Ht].
    { apply lookup_lt_Some in Hi. lia. }
    rewrite (Hcode i t j Ht Hi) in Hget. injection Hget as <-.
    by destruct t as [[] [] d].
  - rewrite (Hzero j Hj Hnot) in Hget. by injection Hget as <-.
Qed.

Lemma returned_labels_never_naive_witness :
  Z.land 8 (Z.lor ActionLabels.naive_left ActionLabels.naive_right) = 0 ∧
  Z.land 8 (Z.lor ActionLabels.naive_short ActionLabels.naive_long) = 0.
Proof.
  apply (returned_labels_never_naive threshold_binarise demo_argsort session_long_short
           two_pulse_table false
           [[1; 1]; [0; 0]; [0; 2]; [0; 0]; [8; 1]; [0; 2]; [0; 0]]) with (j := 4%nat).
  - vm_compute. reflexivity.
  - reflexivity.
Defined.

(** ** Well-formed tables *)

(** X13: the correction keeps a table well formed and keeps its column keys:
    when it returns, every column of the result still has one entry per row
    and the result has the columns of the input. *)
Theorem correct_led_keeps_table_shape (tbl t' : DataFrame float) :
  correct_led tbl = Ok t' → df_wf tbl →
  df_wf t' ∧ dom (columns t') = dom (columns tbl) ∧ index_len t' = index_len tbl.
Proof.
  unfold correct_led, df_getitem. intros H Hwf.
  destruct (columns tbl !! LED_key) as [led|] eqn:Hled; [|done].
  rewrite bind_Ok_l in H. destruct (PrimFloat.ltb _ _).
  - rewrite bind_Ok_l in H.
    destruct (columns tbl !! sync_key) as [sync|] eqn:Hsync; [|done].
    injection H as <-. split; [|split; [|done]].
    + unfold df_wf, df_setitem. simpl. apply map_Forall_insert_2; [|done].
      unfold series_add_scaled. rewrite length_zip_with.
      rewrite (Hwf _ _ Hled), (Hwf _ _ Hsync). lia.
    + simpl. apply dom_insert_lookup_L. by eexists.
  - by injection H as <-.
Qed.

Lemma correct_led_keeps_table_shape_witness :
  df_wf (df_setitem corrupted_table LED_key [0; 2; 0]%float) ∧
  dom (columns (df_setitem corrupted_table LED_key [0; 2; 0]%float))
    = dom (columns corrupted_table) ∧
  index_len (df_setitem corrupted_table LED_key [0; 2; 0]%float)
    = index_len corrupted_table.
Proof.
  apply (correct_led_keeps_table_shape corrupted_table).
  - vm_compute. reflexivity.
  - refine (bool_decide_unpack _ _). vm_compute. exact I.
Defined.

(** * Further properties of the aggregator *)

(** ** Indexing *)

Lemma list_getitem_nat {A} (l : list A) (i : nat) :
  list_getitem l (Z.of_nat i) =
    match l !! i with
    | Some x => Ok x
    | None => Raise IndexError
    end.
Proof.
  unfold list_getitem.
  replace (Z.of_nat i <? 0) with false by (symmetry; apply Z.ltb_ge; lia).
  replace (0 <=? Z.of_nat i) with true by (symmetry; apply Z.leb_le; lia).
  rewrite Nat2Z.id. simpl.
  destruct (l !! i) as [x|] eqn:Hx.
  - apply lookup_lt_Some in Hx.
    replace (Z.of_nat i <? Z.of_nat (length l)) with true
      by (symmetry; apply Z.ltb_lt; lia).
    done.
  - by destruct (Z.of_nat i <? Z.of_nat (length l)).
Qed.

(** X14: indexing an experiment follows Python's list indexing: an index from
    [-len] to [-1] counts from the end ([e[-k]] is [e[len - k]]), and an index
    outside [-len .. len - 1] raises [IndexError]. *)
Theorem experiment_getitem_bounds {Path Metadata Session : Type}
    (e : @Experiment Path Metadata Session) (index : Z) :
  (0 ≤ index < Z.of_nat (__len__ e) →
     ∃ s, sessions e !! Z.to_nat index = Some s ∧ __getitem__ e index = Ok s) ∧
  (- Z.of_nat (__len__ e) ≤ index < 0 →
     __getitem__ e index = __getitem__ e (Z.of_nat (__len__ e) + index) ∧
     ∃ s, __getitem__ e index = Ok s) ∧
  (index < - Z.of_nat (__len__ e) ∨ Z.of_nat (__len__ e) ≤ index →
     __getitem__ e index = Raise IndexError).
Proof.
  unfold __getitem__, __len__, list_getitem. cbv zeta.
  split; [|split].
  - intros Hi.
    destruct (lookup_lt_is_Some_2 (sessions e) (Z.to_nat index)) as [s Hs]; [lia|].
    exists s. split; [done|].
    replace (index <? 0) with false by (symmetry; apply Z.ltb_ge; lia).
    replace (0 <=? index) with true by (symmetry; apply Z.leb_le; lia).
    replace (index <? Z.of_nat _) with true by (symmetry; apply Z.ltb_lt; lia).
    simpl. by rewrite Hs.
  - intros Hi.
    replace (index <? 0) with true by (symmetry; apply Z.ltb_lt; lia).
    replace (Z.of_nat (length (sessions e)) + index <? 0) with false
      by (symmetry; apply Z.ltb_ge; lia).
    replace (index + Z.of_nat (length (sessions e)))
      with (Z.of_nat (length (sessions e)) + index) by lia.
    split; [done|].
    replace (0 <=? Z.of_nat (length (sessions e)) + index) with true
      by (symmetry; apply Z.leb_le; lia).
    replace (Z.of_nat (length (sessions e)) + index <? Z.of_nat _) with true
      by (symmetry; apply Z.ltb_lt; lia).
    simpl.
    destruct (lookup_lt_is_Some_2 (sessions e)
                (Z.to_nat (Z.of_nat (length (sessions e)) + index))) as [s Hs]; [lia|].
    rewrite Hs. eauto.
  - intros [Hi|Hi].
    + replace (index <? 0) with true by (symmetry; apply Z.ltb_lt; lia).
      replace (0 <=? index + Z.of_nat (length (sessions e))) with false
        by (symmetry; apply Z.leb_gt; lia).
      done.
    + replace (index <? 0) with false by (symmetry; apply Z.ltb_ge; lia).
      replace (index <? Z.of_nat (length (sessions e))) with false
        by (symmetry; apply Z.ltb_ge; lia).
      by rewrite andb_false_r.
Qed.

Lemma experiment_getitem_bounds_witness :
  (∃ s, sessions demo_experiment !! Z.to_nat 1 = Some s ∧
        __getitem__ demo_experiment 1 = Ok s) ∧
  (__getitem__ demo_experiment (-1)
     = __getitem__ demo_experiment (Z.of_nat (__len__ demo_experiment) + -1) ∧
   ∃ s, __getitem__ demo_experiment (-1) = Ok s) ∧
  __getitem__ demo_experiment 2 = Raise IndexError.
Proof.
  split; [|split].
  - apply (proj1 (experiment_getitem_bounds demo_experiment 1)). vm_compute. done.
  - apply (proj1 (proj2 (experiment_getitem_bounds demo_experiment (-1)))).
    vm_compute. done.
  - apply (proj2 (proj2 (experiment_getitem_bounds demo_experiment 2))).
    right. vm_compute. discriminate.
Defined.

(** ** The list-valued methods *)

Lemma for_in_snoc_Raise {A B} (f : A → result B) (pre post : list A) (x : A)
    (ys acc : list B) (e : exn) :
  Forall2 (λ x y, f x = Ok y) pre ys → f x = Raise e →
  for_in (λ acc x, y ← f x; Ok (acc ++ [y])) (pre ++ x :: post) acc = Raise e.
Proof.
  intros Hpre Hx. revert acc.
  induction Hpre as [|x0 y0 pre ys Hx0 _ IH]; intros acc; simpl.
  - by rewrite Hx.
  - rewrite Hx0. simpl. apply IH.
Qed.

Section ExperimentQueriesProperties.
Context {Path Metadata Session Args Units Info Table : Type}.
Variable session_select_units : Session → Args → result Units.
Variable session_get_cluster_info : Session → result Info.
Variable session_align_trials :
  Session → Args → option Units → result Table.
Variable pandas_concat : list Table → list nat → list string → result Table.

Abbreviation Exp := (@Experiment Path Metadata Session).

(** X15: [select_units] and [get_cluster_info] return exactly when every
    session's call returns, and then the list holds the sessions' results in
    the order of the sessions, one per session. *)
Theorem per_session_lists (self : Exp) (args : Args) (us : list Units)
    (infos : list Info) :
  (select_units session_select_units self args = Ok us ↔
     Forall2 (λ s u, session_select_units s args = Ok u) (sessions self) us) ∧
  (get_cluster_info session_get_cluster_info self = Ok infos ↔
     Forall2 (λ s i, session_get_cluster_info s = Ok i) (sessions self) infos).
Proof.
  unfold select_units, get_cluster_info. split.
  - rewrite (for_in_snoc_Ok (λ s, session_select_units s args)). split.
    + by intros (ys & Hall & ->).
    + intros Hall. by exists us.
  - rewrite (for_in_snoc_Ok session_get_cluster_info). split.
    + by intros (ys & Hall & ->).
    + intros Hall. by exists infos.
Qed.

(** X16: the first session whose call raises ends [select_units] and
    [get_cluster_info] with that exception; the results of the sessions before
    it are dropped. *)
Theorem per_session_lists_propagate (self : Exp) (args : Args)
    (pre post : list Session) (s : Session) (e : exn) :
  sessions self = pre ++ s :: post →
  (∀ us, Forall2 (λ s u, session_select_units s args = Ok u) pre us →
     session_select_units s args = Raise e →
     select_units session_select_units self args = Raise e) ∧
  (∀ infos, Forall2 (λ s i, session_get_cluster_info s = Ok i) pre infos →
     session_get_cluster_info s = Raise e →
     get_cluster_info session_get_cluster_info self = Raise e).
Proof.
  intros Hsessions. unfold select_units, get_cluster_info. rewrite Hsessions. split.
  - intros us Hpre Hs.
    by apply (for_in_snoc_Raise (λ s, session_select_units s args)) with (ys := us).
  - intros infos Hpre Hs.
    by apply (for_in_snoc_Raise session_get_cluster_info) with (ys := infos).
Qed.

Lemma align_trials_loop_units (args : Args) (us : list Units) (l : list Session)
    (tables acc : list Table) (i : nat) :
  truthy_list (Some us) = true →
  Forall2 (λ su t, session_align_trials su.1 args (Some su.2) = Ok t)
    (zip l (drop i us)) tables →
  (length l ≤ length (drop i us))%nat →
  for_enumerate
    (λ trials (i : nat) session,
       if truthy_list (Some us) then
         u ← units_getitem (Some us) i;
         t ← session_align_trials session args (Some u);
         Ok (trials ++ [t])
       else
         t ← session_align_trials session args None;
         Ok (trials ++ [t]))
    i l acc
  = Ok (acc ++ tables).
Proof.
  intros Htruthy. rewrite Htruthy.
  revert tables acc i. induction l as [|s l IH]; intros tables acc i Hall Hlen; simpl.
  - simpl in Hall. apply Forall2_nil_inv_l in Hall as ->. by rewrite app_nil_r.
  - destruct (drop i us) as [|u rest] eqn:Hdrop; [simpl in Hlen; lia|].
    simpl in Hall. apply Forall2_cons_inv_l in Hall as (t & tables' & Ht & Hall & ->).
    assert (us !! i = Some u) as Hu.
    { rewrite <- (Nat.add_0_r i), <- lookup_drop, Hdrop. done. }
    unfold units_getitem. rewrite list_getitem_nat, Hu. simpl in *. rewrite Ht. simpl.
    assert (drop (S i) us = rest) as Hrest.
    { pose proof (drop_S _ _ _ Hu) as HS. rewrite Hdrop in HS. by injection HS. }
    rewrite (IH tables' (acc ++ [t]) (S i)).
    + by rewrite <- app_assoc.
    + by rewrite Hrest.
    + rewrite Hrest. lia.
Qed.

End ExperimentQueriesProperties.

(** ** [align_trials] *)

Lemma for_enumerate_app {A St} (body : St → nat → A → result St)
    (l1 l2 : list A) (i : nat) (acc : St) :
  for_enumerate body i (l1 ++ l2) acc =
    acc' ← for_enumerate body i l1 acc;
    for_enumerate body (i + length l1) l2 acc'.
Proof.
  revert i acc. induction l1 as [|x l1 IH]; intros i acc; simpl.
  - by rewrite Nat.add_0_r.
  - destruct (body acc i x) as [acc'|e]; simpl; [|done].
    rewrite IH. by replace (S i + length l1)%nat with (i + S (length l1))%nat by lia.
Qed.

Section AlignTrialsProperties.
Context {Path Metadata Session SelectArgs Args Units Table : Type}.
Variable session_select_units : Session → SelectArgs → result Units.
Variable session_align_trials :
  Session → Args → option Units → result Table.
Variable pandas_concat : list Table → list nat → list string → result Table.

Abbreviation Exp := (@Experiment Path Metadata Session).

(** X17: without [units], on at least one session and when every session's
    call returns, [align_trials] is the one call of [pd.concat] on the
    sessions' tables, in the order of the sessions, one table per session,
    with the keys [0 .. len(sessions) - 1] and the four level names; it returns
    or raises as that call does. *)
Theorem align_trials_concatenates_session_tables (self : Exp) (args : Args)
    (tables : list Table) :
  sessions self ≠ [] →
  Forall2 (λ s t, session_align_trials s args None = Ok t) (sessions self) tables →
  length tables = length (sessions self) ∧
  align_trials session_align_trials pandas_concat self args None
    = pandas_concat tables (seq 0 (length (sessions self)))
        ["session"; "rec_num"; "unit"; "trial"].
Proof.
  intros Hne Hall. pose proof (Forall2_length _ _ _ Hall) as Hlen.
  split; [done|]. unfold align_trials.
  rewrite (align_trials_loop session_align_trials args _ tables [] 0 Hall).
  simpl. rewrite <- Hlen.
  destruct tables as [|t tables]; [|done].
  destruct (sessions self); done.
Qed.

(** X18: the output of [select_units] fits [align_trials]: on at least one
    session, when the i-th session's [align_trials] returns for the i-th
    selection, the batch call with [units] set to that output is the one call
    of [pd.concat] on the sessions' tables, in the order of the sessions, with
    the keys [0 .. len(sessions) - 1] and the four level names; it returns or
    raises as that call does. *)
Theorem select_units_then_align_trials (self : Exp) (sargs : SelectArgs) (args : Args)
    (us : list Units) (tables : list Table) :
  select_units session_select_units self sargs = Ok us →
  sessions self ≠ [] →
  Forall2 (λ su t, session_align_trials su.1 args (Some su.2) = Ok t)
    (zip (sessions self) us) tables →
  align_trials session_align_trials pandas_concat self args (Some us)
    = pandas_concat tables (seq 0 (length (sessions self)))
        ["session"; "rec_num"; "unit"; "trial"].
Proof.
  unfold select_units. intros Hsel Hne Hall.
  apply (for_in_snoc_Ok (λ s, session_select_units s sargs)) in Hsel
    as (ys & Hys & ->). simpl in *.
  pose proof (Forall2_length _ _ _ Hys) as Hlen.
  pose proof (Forall2_length _ _ _ Hall) as Hlen'.
  rewrite length_zip in Hlen'.
  assert (truthy_list (Some ys) = true) as Htruthy.
  { destruct ys; [|done]. destruct (sessions self); done. }
  unfold align_trials.
  rewrite (align_trials_loop_units session_align_trials args ys (sessions self) tables [] 0
             Htruthy); [|by rewrite drop_0|rewrite drop_0; lia].
  simpl. replace (length tables) with (length (sessions self)) by lia.
  destruct tables as [|t tables]; [|done].
  destruct (sessions self) as [|s l]; [done|]. cbn [length] in Hlen, Hlen'. lia.
Qed.

(** X19: a non-empty [units] list shorter than the list of sessions makes
    [align_trials] raise [IndexError] at the first session without an entry,
    after the sessions before it have been aligned. *)
Theorem align_trials_units_too_short (self : Exp) (args : Args)
    (us : list Units) (tables : list Table) :
  us ≠ [] → (length us < length (sessions self))%nat →
  Forall2 (λ su t, session_align_trials su.1 args (Some su.2) = Ok t)
    (zip (take (length us) (sessions self)) us) tables →
  align_trials session_align_trials pandas_concat self args (Some us) = Raise IndexError.
Proof.
  intros Hne Hshort Hall.
  assert (truthy_list (Some us) = true) as Htruthy by (by destruct us).
  unfold align_trials.
  rewrite <- (take_drop (length us) (sessions self)) at 1.
  rewrite for_enumerate_app.
  rewrite (align_trials_loop_units session_align_trials args us _ tables [] 0 Htruthy);
    [|by rewrite drop_0|rewrite drop_0, length_take; lia].
  rewrite bind_Ok_l, length_take, Nat.min_l by lia.
  destruct (drop (length us) (sessions self)) as [|s rest] eqn:Hdrop.
  { apply (f_equal length) in Hdrop. rewrite length_drop in Hdrop. simpl in Hdrop. lia. }
  cbn [for_enumerate]. rewrite Htruthy. unfold units_getitem.
  rewrite list_getitem_nat, lookup_ge_None_2 by lia. done.
Qed.

End AlignTrialsProperties.

Lemma per_session_lists_propagate_witness :
  select_units demo_failing_select demo_experiment () = Raise (ValueError "no units").
Proof.
  apply (proj1 (per_session_lists_propagate demo_failing_select
                  (λ s : string, Ok s) demo_experiment () ["m1"] [] "m2"
                  (ValueError "no units") eq_refl) ["m1"]).
  - repeat constructor.
  - reflexivity.
Defined.

Lemma align_trials_concatenates_session_tables_witness :
  length [[([0; 1; 0], "m1")]; [([0; 1; 0], "m2")]] = length (sessions demo_experiment) ∧
  align_trials demo_align_trials demo_concat demo_experiment () None
    = demo_concat [[([0; 1; 0], "m1")]; [([0; 1; 0], "m2")]]
        (seq 0 (length (sessions demo_experiment)))
        ["session"; "rec_num"; "unit"; "trial"].
Proof.
  apply (align_trials_concatenates_session_tables demo_align_trials demo_concat
           demo_experiment () [[([0; 1; 0], "m1")]; [([0; 1; 0], "m2")]]).
  - discriminate.
  - repeat constructor.
Defined.

Lemma select_units_then_align_trials_witness :
  align_trials demo_align_trials demo_concat demo_experiment () (Some ["m1"; "m2"])
    = demo_concat [[([0; 1; 0], "m1")]; [([0; 1; 0], "m2")]]
        (seq 0 (length (sessions demo_experiment)))
        ["session"; "rec_num"; "unit"; "trial"].
Proof.
  apply (select_units_then_align_trials demo_select_units demo_align_trials demo_concat
           demo_experiment () () ["m1"; "m2"]).
  - reflexivity.
  - discriminate.
  - repeat constructor.
Defined.

Lemma align_trials_units_too_short_witness :
  align_trials demo_align_trials demo_concat demo_experiment () (Some ["m1"]) = Raise IndexError.
Proof.
  apply (align_trials_units_too_short demo_align_trials demo_concat demo_experiment ()
           ["m1"] [[([0; 1; 0], "m1")]]).
  - discriminate.
  - simpl. lia.
  - repeat constructor.
Defined.

(** ** The batch methods that work by side effect *)

Lemma calls_in_order_app {Session World : Type}
    (method : Session → World → World * result unit)
    (l1 l2 : list Session) (w w' w'' : World) :
  calls_in_order method l1 w w' → calls_in_order method l2 w' w'' →
  calls_in_order method (l1 ++ l2) w w''.
Proof.
  induction 1 as [|s l w0 w1 w2 Hs _ IH]; intros H2; simpl; [done|].
  econstructor; [done|]. by apply IH.
Qed.

Lemma calls_in_order_det {Session World : Type}
    (method : Session → World → World * result unit)
    (l : list Session) (w w1 w2 : World) :
  calls_in_order method l w w1 → calls_in_order method l w w2 → w1 = w2.
Proof.
  induction 1 as [|s l w0 w' w'' Hs _ IH]; intros H2.
  - by inversion H2.
  - inversion H2 as [|s' l' v0 v1 v2 Hs' Hrest]; subst.
    apply IH. congruence.
Qed.

Lemma calls_in_order_no_Raise {Session World : Type}
    (method : Session → World → World * result unit)
    (pre post : list Session) (s : Session) (w0 w w1 w' : World) (e : exn) :
  calls_in_order method (pre ++ s :: post) w0 w →
  calls_in_order method pre w0 w1 → method s w1 = (w', Raise e) → False.
Proof.
  intros Hall Hpre. revert Hall. induction Hpre as [|s0 l v0 v1 v2 Hs0 _ IH];
    intros Hall Hs; simpl in Hall.
  - inversion Hall; subst. congruence.
  - inversion Hall as [|s' l' u0 u1 u2 Hs' Hrest]; subst.
    apply IH; [|done]. congruence.
Qed.

Section ProgressLoop.
Context {Path Metadata Session World : Type}.
Variable session_name : Session → string.
Variable what : string.
Variable method : Session → World → World * result unit.
Variable n : nat.

Local Abbreviation body :=
  (λ (i : nat) (session : Session),
     and_then (print (progress_line what (session_name session) (i + 1) n))
       (call (method session))).

Lemma progress_step (i : nat) (s : Session) (l : list Session) (σ : state) :
  for_enumerate_do body i (s :: l) σ =
    match method s (world σ) with
    | (w', Ok _) =>
        for_enumerate_do body (S i) l
          (mkState w' (stdout σ ++ [progress_line what (session_name s) (i + 1) n]))
    | (w', Raise e) =>
        (mkState w' (stdout σ ++ [progress_line what (session_name s) (i + 1) n]),
         Raise e)
    end.
Proof.
  simpl. unfold and_then, print, call. simpl.
  by destruct (method s (world σ)) as [w' [u|e]].
Qed.

Lemma progress_lines_cons (i : nat) (s : Session) (l : list Session) :
  progress_lines session_name what n i (s :: l)
    = progress_line what (session_name s) (i + 1) n
      :: progress_lines session_name what n (S i) l.
Proof.
  unfold progress_lines. rewrite imap_cons. rewrite Nat.add_0_r. f_equal.
  apply imap_ext. intros k x _. simpl. f_equal. lia.
Qed.

Lemma progress_from_Ok (l : list Session) (i : nat) (σ σ' : state) :
  for_enumerate_do body i l σ = (σ', Ok ()) ↔
  calls_in_order method l (world σ) (world σ') ∧
  stdout σ' = stdout σ ++ progress_lines session_name what n i l.
Proof.
  revert i σ. induction l as [|s l IH]; intros i σ.
  - simpl. split.
    + intros [= <-]. split; [constructor|]. by rewrite app_nil_r.
    + intros [Hcalls Hout]. inversion Hcalls as [w Hw1 Hw2|]; subst.
      unfold progress_lines in Hout. simpl in Hout. rewrite app_nil_r in Hout.
      destruct σ, σ'; simpl in *. by subst.
  - rewrite progress_step, progress_lines_cons. split.
    + destruct (method s (world σ)) as [w' [[]|e]] eqn:Hs; [|done].
      intros [Hcalls Hout]%IH. simpl in *. split.
      * by econstructor.
      * rewrite Hout. by rewrite <- app_assoc.
    + intros [Hcalls Hout]. inversion Hcalls as [|s0 l0 w0 w1 w2 Hs Hrest]; subst.
      rewrite Hs. apply IH. simpl. split; [done|].
      rewrite Hout. by rewrite <- app_assoc.
Qed.

Lemma progress_from_Raise (l : list Session) (i : nat) (σ σ' : state) (e : exn) :
  for_enumerate_do body i l σ = (σ', Raise e) ↔
  ∃ pre s post w,
    l = pre ++ s :: post ∧
    calls_in_order method pre (world σ) w ∧
    method s w = (world σ', Raise e) ∧
    stdout σ' = stdout σ ++ progress_lines session_name what n i (pre ++ [s]).
Proof.
  revert i σ. induction l as [|s l IH]; intros i σ.
  - simpl. split; [done|]. intros (pre & s & post & w & Hl & _). by destruct pre.
  - rewrite progress_step. split.
    + destruct (method s (world σ)) as [w' [[]|e']] eqn:Hs.
      * intros (pre & s' & post & w & -> & Hcalls & Hs' & Hout)%IH. simpl in *.
        exists (s :: pre), s', post, w. split; [done|]. split; [by econstructor|].
        split; [done|].
        rewrite Hout. simpl. rewrite progress_lines_cons. by rewrite <- app_assoc.
      * intros [= <- <-]. exists [], s, l, (world σ). simpl.
        split; [done|]. split; [constructor|]. split; [done|].
        by rewrite progress_lines_cons.
    + intros (pre & s' & post & w & Hl & Hcalls & Hs' & Hout).
      destruct pre as [|s0 pre]; simpl in Hl; injection Hl as <- ->.
      * inversion Hcalls; subst. rewrite Hs'.
        simpl in Hout. rewrite progress_lines_cons in Hout.
        destruct σ'; simpl in *. by subst.
      * inversion Hcalls as [|s1 l1 w0 w1 w2 Hs Hrest]; subst.
        rewrite Hs. apply IH. exists pre, s', post, w. simpl.
        split; [done|]. split; [done|]. split; [done|].
        rewrite Hout. simpl. rewrite progress_lines_cons. by rewrite <- app_assoc.
Qed.

End ProgressLoop.

Section PlainLoop.
Context {Session World : Type}.
Variable method : Session → World → World * result unit.

Local Abbreviation body := (λ (_ : nat) (session : Session), call (method session)).

Lemma plain_step (i : nat) (s : Session) (l : list Session) (σ : state) :
  for_enumerate_do body i (s :: l) σ =
    match method s (world σ) with
    | (w', Ok _) => for_enumerate_do body (S i) l (mkState w' (stdout σ))
    | (w', Raise e) => (mkState w' (stdout σ), Raise e)
    end.
Proof.
  simpl. unfold and_then, call. simpl.
  by destruct (method s (world σ)) as [w' [u|e]].
Qed.

Lemma plain_from_Ok (l : list Session) (i : nat) (σ σ' : state) :
  for_enumerate_do body i l σ = (σ', Ok ()) ↔
  calls_in_order method l (world σ) (world σ') ∧ stdout σ' = stdout σ.
Proof.
  revert i σ. induction l as [|s l IH]; intros i σ.
  - simpl. split.
    + intros [= <-]. split; [constructor|done].
    + intros [Hcalls Hout]. inversion Hcalls; subst.
      destruct σ, σ'; simpl in *. by subst.
  - rewrite plain_step. split.
    + destruct (method s (world σ)) as [w' [[]|e]] eqn:Hs; [|done].
      intros [Hcalls Hout]%IH. simpl in *. split; [by econstructor|done].
    + intros [Hcalls Hout]. inversion Hcalls as [|s0 l0 w0 w1 w2 Hs Hrest]; subst.
      rewrite Hs. by apply IH.
Qed.

Lemma plain_from_Raise (l : list Session) (i : nat) (σ σ' : state) (e : exn) :
  for_enumerate_do body i l σ = (σ', Raise e) ↔
  ∃ pre s post w,
    l = pre ++ s :: post ∧
    calls_in_order method pre (world σ) w ∧
    method s w = (world σ', Raise e) ∧
    stdout σ' = stdout σ.
Proof.
  revert i σ. induction l as [|s l IH]; intros i σ.
  - simpl. split; [done|]. intros (pre & s & post & w & Hl & _). by destruct pre.
  - rewrite plain_step. split.
    + destruct (method s (world σ)) as [w' [[]|e']] eqn:Hs.
      * intros (pre & s' & post & w & -> & Hcalls & Hs' & Hout)%IH. simpl in *.
        exists (s :: pre), s', post, w. split; [done|]. split; [by econstructor|].
        done.
      * intros [= <- <-]. exists [], s, l, (world σ). simpl.
        split; [done|]. split; [constructor|]. done.
    + intros (pre & s' & post & w & Hl & Hcalls & Hs' & Hout).
      destruct pre as [|s0 pre]; simpl in Hl; injection Hl as <- ->.
      * inversion Hcalls; subst. rewrite Hs'.
        destruct σ'; simpl in *. by subst.
      * inversion Hcalls as [|s1 l1 w0 w1 w2 Hs Hrest]; subst.
        rewrite Hs. apply IH. exists pre, s', post, w. done.
Qed.

End PlainLoop.

Section BatchProperties.
Context {Path Metadata Session World : Type}.
Variable session_name : Session → string.

Abbreviation Exp := (@Experiment Path Metadata Session).

(** X20: each of [process_spikes], [sort_spikes], [assess_noise],
    [process_lfp], [process_behaviour], [extract_videos],
    [process_motion_tracking] and [draw_motion_index_rois] returns exactly when
    the method of every session returns, called in the order of the sessions,
    each on the world the one before left; it has then printed one progress
    line per session, numbered from 1 to the number of sessions. *)
Theorem batch_returns {Config : Type}
    (spikes sort noise lfp behav : Session → World → World * result unit)
    (videos : Session → bool → World → World * result unit)
    (tracking : Session → Config → bool → World → World * result unit)
    (rois : Session → nat → World → World * result unit)
    (self : Exp) (force : bool) (config : Config) (labelled : bool) (num_rois : nat) :
  returns_after_all_sessions session_name "Processing spikes" spikes (sessions self)
    (process_spikes session_name spikes self) ∧
  returns_after_all_sessions session_name "Sorting spikes" sort (sessions self)
    (sort_spikes session_name sort self) ∧
  returns_after_all_sessions session_name "Assessing noise" noise (sessions self)
    (assess_noise session_name noise self) ∧
  returns_after_all_sessions session_name "Processing LFP data" lfp (sessions self)
    (process_lfp session_name lfp self) ∧
  returns_after_all_sessions session_name "Processing behaviour" behav (sessions self)
    (process_behaviour session_name behav self) ∧
  returns_after_all_sessions session_name "Extracting videos"
    (λ s, videos s force) (sessions self)
    (extract_videos session_name videos self force) ∧
  returns_after_all_sessions session_name "Processing motion tracking"
    (λ s, tracking s config labelled) (sessions self)
    (process_motion_tracking session_name tracking self config labelled) ∧
  returns_after_all_sessions session_name "Drawing motion index ROIs"
    (λ s, rois s num_rois) (sessions self)
    (draw_motion_index_rois session_name rois self num_rois).
Proof.
  repeat apply conj; intros σ σ'; apply progress_from_Ok.
Qed.

(** X21: each of these eight methods raises exactly when the method of some
    session raises after the sessions before it have returned; the exception
    is that session's, the sessions after it are neither announced nor
    processed, and the world is as the failing call left it. *)
Theorem batch_aborts {Config : Type}
    (spikes sort noise lfp behav : Session → World → World * result unit)
    (videos : Session → bool → World → World * result unit)
    (tracking : Session → Config → bool → World → World * result unit)
    (rois : Session → nat → World → World * result unit)
    (self : Exp) (force : bool) (config : Config) (labelled : bool) (num_rois : nat) :
  aborts_at_first_failure session_name "Processing spikes" spikes (sessions self)
    (process_spikes session_name spikes self) ∧
  aborts_at_first_failure session_name "Sorting spikes" sort (sessions self)
    (sort_spikes session_name sort self) ∧
  aborts_at_first_failure session_name "Assessing noise" noise (sessions self)
    (assess_noise session_name noise self) ∧
  aborts_at_first_failure session_name "Processing LFP data" lfp (sessions self)
    (process_lfp session_name lfp self) ∧
  aborts_at_first_failure session_name "Processing behaviour" behav (sessions self)
    (process_behaviour session_name behav self) ∧
  aborts_at_first_failure session_name "Extracting videos"
    (λ s, videos s force) (sessions self)
    (extract_videos session_name videos self force) ∧
  aborts_at_first_failure session_name "Processing motion tracking"
    (λ s, tracking s config labelled) (sessions self)
    (process_motion_tracking session_name tracking self config labelled) ∧
  aborts_at_first_failure session_name "Drawing motion index ROIs"
    (λ s, rois s num_rois) (sessions self)
    (draw_motion_index_rois session_name rois self num_rois).
Proof.
  repeat apply conj; intros σ σ' e; apply progress_from_Raise.
Qed.

(** X22: [set_cache] passes the flag to every session, in order, and prints
    nothing. *)
Theorem set_cache_reaches_every_session
    (session_set_cache : Session → bool → World → World * result unit)
    (self : Exp) (on : bool) (σ σ' : state) :
  set_cache session_set_cache self on σ = (σ', Ok ()) ↔
  calls_in_order (λ s, session_set_cache s on) (sessions self) (world σ) (world σ') ∧
  stdout σ' = stdout σ.
Proof. unfold set_cache. apply (plain_from_Ok (λ s, session_set_cache s on)). Qed.

(** X23: [process_motion_index] draws the regions of every session before it
    processes any: it returns exactly when all the drawing calls return, in
    order, and then all the processing calls, in order; and when a drawing
    call raises, nothing has been printed and no session has been
    processed. *)
Theorem process_motion_index_draws_first
    (draw : Session → nat → World → World * result unit)
    (process : Session → World → World * result unit)
    (self : Exp) (num_rois : nat) (σ σ' : state) :
  (process_motion_index session_name draw process self num_rois σ = (σ', Ok ()) ↔
   ∃ w, calls_in_order (λ s, draw s num_rois) (sessions self) (world σ) w ∧
        calls_in_order process (sessions self) w (world σ') ∧
        stdout σ' = stdout σ
          ++ progress_lines session_name "Processing motion index"
               (length (sessions self)) 0 (sessions self)) ∧
  (∀ pre s post w w' e,
     sessions self = pre ++ s :: post →
     calls_in_order (λ s, draw s num_rois) pre (world σ) w →
     draw s num_rois w = (w', Raise e) →
     process_motion_index session_name draw process self num_rois σ
       = (mkState w' (stdout σ), Raise e)).
Proof.
  unfold process_motion_index, and_then. split.
  - destruct (for_enumerate_do _ 0 (sessions self) σ) as [σ1 [[]|e]] eqn:Hdraw.
    + apply (plain_from_Ok (λ s, draw s num_rois)) in Hdraw as [Hcalls Hout].
      unfold progress_loop. rewrite progress_from_Ok, Hout. split.
      * intros [Hproc Hlines]. by exists (world σ1).
      * intros (w & Hdraws & Hproc & Hlines). split; [|done].
        by rewrite (calls_in_order_det _ _ _ _ _ Hcalls Hdraws).
    + split; [done|]. intros (w & Hdraws & _).
      apply (plain_from_Raise (λ s, draw s num_rois)) in Hdraw
        as (pre & s & post & w1 & Hl & Hpre & Hs & _).
      rewrite Hl in Hdraws. exfalso.
      by apply (calls_in_order_no_Raise _ _ _ _ _ _ _ _ _ Hdraws Hpre Hs).
  - intros pre s post w w' e Hl Hpre Hs.
    assert (for_enumerate_do (λ (_ : nat) (session : Session),
                                call (draw session num_rois)) 0 (sessions self) σ
            = (mkState w' (stdout σ), Raise e)) as ->; [|done].
    apply (plain_from_Raise (λ s, draw s num_rois)).
    exists pre, s, post, w. done.
Qed.

End BatchProperties.

(** Two runs of [process_spikes] in the small world: one that returns, and one
    in which the second of three sessions fails. *)
Example demo_process_spikes_returns :
  process_spikes id (demo_process "spikes") demo_experiment (mkState [] [])
  = (mkState ["spikes m1"; "spikes m2"]
       [">>>>> Processing spikes for session m1 (1 / 2)";
        ">>>>> Processing spikes for session m2 (2 / 2)"],
     Ok ()).
Proof. vm_compute. reflexivity. Qed.

Example demo_process_spikes_aborts :
  process_spikes id (demo_failing_process "spikes")
    (mkExperiment demo_behaviour ["m1"; "m2"; "m3"] "/data" None
       "/data/raw" "/data/processed" "/data/interim" ["m1"; "m2"; "m3"])
    (mkState [] [])
  = (mkState ["spikes m1"; "spikes m2"]
       [">>>>> Processing spikes for session m1 (1 / 3)";
        ">>>>> Processing spikes for session m2 (2 / 3)"],
     Raise (ValueError "no data")).
Proof. vm_compute. reflexivity. Qed.

Example demo_process_motion_index_aborts :
  process_motion_index id (λ s (_ : nat), demo_failing_process "rois" s)
    (demo_process "index") demo_experiment 1 (mkState [] [])
  = (mkState ["rois m1"; "rois m2"] [], Raise (ValueError "no data")).
Proof. vm_compute. reflexivity. Qed.

(** ** A session with a single trial *)

Lemma argsort_length (np_argsort : Argsort) (a : array_like) :
  length (np_argsort a) = array_len a.
Proof. by rewrite (argsort_perm np_argsort a), length_seq. Qed.

Lemma argsort_singleton (np_argsort : Argsort) (a : array_like) :
  array_len a = 1%nat → np_argsort a = [0%nat].
Proof.
  intros H. pose proof (argsort_perm np_argsort a) as Hp. rewrite H in Hp.
  by apply Permutation_singleton_r in Hp.
Qed.

Lemma np_sub_single_onset (offs : list nat) (on : nat) :
  ∃ d, np_sub offs [on] = Ok d ∧ length d = length offs.
Proof.
  unfold np_sub. case_bool_decide as Hlen.
  - eexists. split; [done|]. rewrite length_zip_with. simpl in *. lia.
  - destruct offs as [|x [|x' offs]]; [by eexists|done|].
    eexists. split; [done|]. by rewrite length_fmap.
Qed.

(** X25: with one rising edge and one trial, the rank check passes exactly
    when the trace has one falling edge.  With no falling edge, or with more
    than one, numpy broadcasts the subtraction of line 91 against the single
    onset, the array of durations has another length than the list of the
    metadata, and the routine raises the domain error of the rank check. *)
Theorem single_trial_needs_single_offset
    (binarise : DataFrame float → DataFrame Z)
    (np_argsort : Argsort) (self : Reach)
    (tbl t' : DataFrame float) (cue : list Z) :
  correct_led tbl = Ok t' →
  read_cue_leds (binarise t') = Ok cue →
  (length cue ≤ index_len (binarise t'))%nat →
  length (led_onsets_of cue) = 1%nat →
  length (metadata_trials self) = 1%nat →
  (length (led_offsets_of cue) = 1%nat →
     ∃ labels, _extract_action_labels binarise np_argsort self tbl false = Ok labels) ∧
  (length (led_offsets_of cue) ≠ 1%nat →
     ∀ plot, _extract_action_labels binarise np_argsort self tbl plot
             = Raise (PixelsError (trial_data_msg self))).
Proof.
  intros Hcorr Hcue Hlen Hon Htrials.
  assert (∃ on, led_onsets_of cue = [on]) as [on Hons].
  { destruct (led_onsets_of cue) as [|on [|on' l]]; try done. by exists on. }
  destruct (np_sub_single_onset (led_offsets_of cue) on) as (d & Hd & Hdlen).
  assert (length (np_argsort (number_list (cue_duration <$> metadata_trials self)))
          = 1%nat) as Hjson.
  { rewrite argsort_length. simpl. by rewrite length_fmap. }
  split.
  - intros Hoff.
    destruct (extract_after_marking binarise np_argsort self tbl t' cue false
                Hcorr Hcue Hlen) as (arr1 & arr2 & _ & _ & Hloop & ->).
    rewrite bool_decide_true by congruence. simpl negb. cbv iota.
    rewrite Hons, Hd, bind_Ok_l. cbv beta. unfold np_array_equal.
    rewrite bool_decide_true.
    + simpl negb. cbv iota. rewrite <- Hons.
      destruct Hloop as [labels ->]; [congruence|]. by eexists.
    + rewrite !argsort_singleton; [done|simpl..].
      * by rewrite length_fmap.
      * congruence.
  - intros Hoff plot.
    destruct (extract_after_marking binarise np_argsort self tbl t' cue plot
                Hcorr Hcue Hlen) as (arr1 & arr2 & _ & _ & _ & ->).
    rewrite bool_decide_true by congruence. simpl negb. cbv iota.
    rewrite Hons, Hd, bind_Ok_l. cbv beta. unfold np_array_equal.
    rewrite bool_decide_false; [done|].
    intros Heq. apply (f_equal length) in Heq.
    rewrite Hjson, argsort_length in Heq. simpl in Heq. congruence.
Qed.

Lemma single_trial_needs_single_offset_witness :
  (length (led_offsets_of [1; 0; 1; 0]) = 1%nat →
     ∃ labels,
       _extract_action_labels threshold_binarise demo_argsort session_one_trial
         (mkDataFrame 4 {[ LED_key := [1; 0; 1; 0]%float ]}) false = Ok labels) ∧
  (length (led_offsets_of [1; 0; 1; 0]) ≠ 1%nat →
     ∀ plot,
       _extract_action_labels threshold_binarise demo_argsort session_one_trial
         (mkDataFrame 4 {[ LED_key := [1; 0; 1; 0]%float ]}) plot
       = Raise (PixelsError (trial_data_msg session_one_trial))).
Proof.
  apply (single_trial_needs_single_offset threshold_binarise demo_argsort session_one_trial
           (mkDataFrame 4 {[ LED_key := [1; 0; 1; 0]%float ]})
           (mkDataFrame 4 {[ LED_key := [1; 0; 1; 0]%float ]}) [1; 0; 1; 0]).
  - vm_compute. reflexivity.
  - vm_compute. reflexivity.
  - vm_compute. lia.
  - reflexivity.
  - reflexivity.
Defined.

(** A trace that starts with the LED on and shows one full pulse later has one
    rising edge and two falling edges: with one trial in the metadata the
    routine raises the domain error of the rank check. *)
Example demo_single_trial_two_offsets :
  led_onsets_of [1; 0; 1; 0] = [1%nat] ∧ led_offsets_of [1; 0; 1; 0] = [0%nat; 2%nat] ∧
  np_sub (led_offsets_of [1; 0; 1; 0]) (led_onsets_of [1; 0; 1; 0]) = Ok [-1; 1] ∧
  _extract_action_labels threshold_binarise demo_argsort session_one_trial
    (mkDataFrame 4 {[ LED_key := [1; 0; 1; 0]%float ]}) false
  = Raise (PixelsError (trial_data_msg session_one_trial)).
Proof. vm_compute. done. Qed.

(** ** Errors of session discovery and construction *)

Section InitErrors.
Context {Path Metadata Session : Type}.
Variable mkPath : string → Path.
Variable path_exists : Path → bool.
Variable joinpath : Path → string → Path.
Variable get_sessions :
  list string → Path → option Path → result (list (@session_info Path Metadata)).

(** X24: once the directories are found, session discovery is called with the
    list of ids (a single id becomes a one-element list), the data path and
    the metadata path; an exception of the discovery, or of the construction
    of a session object after the ones before it were built, ends the
    construction of the experiment with that exception. *)
Theorem init_propagates_errors (ids : string + list string)
    (cls : string → Metadata → Path → result Session) (dd : string) (md : option string)
    (e : exn) :
  path_exists (mkPath dd) = true →
  (∀ m, md = Some m → m ≠ "" → path_exists (mkPath m) = true) →
  (get_sessions (match ids with inl id => [id] | inr l => l end) (mkPath dd)
     (if truthy_str md then mkPath <$> md else None) = Raise e →
   __init__ mkPath path_exists joinpath get_sessions ids cls dd md = Raise e) ∧
  (∀ pre info post built,
     get_sessions (match ids with inl id => [id] | inr l => l end) (mkPath dd)
       (if truthy_str md then mkPath <$> md else None) = Ok (pre ++ info :: post) →
     Forall2 (λ i s, cls (info_name i) (info_metadata i) (info_data_dir i) = Ok s)
       pre built →
     cls (info_name info) (info_metadata info) (info_data_dir info) = Raise e →
     __init__ mkPath path_exists joinpath get_sessions ids cls dd md = Raise e).
Proof.
  intros Hdd Hmeta. unfold __init__. rewrite Hdd. simpl negb. cbv iota.
  assert ((if truthy_str md then
             match md with
             | Some m =>
                 if negb (path_exists (mkPath m))
                 then Raise (PixelsError ("Directory not found: " +:+ m))
                 else Ok (Some (mkPath m))
             | None => Ok None
             end
           else Ok None)
          = Ok (if truthy_str md then mkPath <$> md else None)) as ->.
  { destruct md as [m|]; simpl; [|done].
    destruct (String.eqb m "") eqn:Hempty; simpl; [done|].
    by rewrite (Hmeta m eq_refl) by (by apply String.eqb_neq). }
  rewrite bind_Ok_l. split.
  - by intros ->.
  - intros pre info post built -> Hpre Hinfo. rewrite bind_Ok_l.
    by rewrite (for_in_snoc_Raise
                  (λ i, cls (info_name i) (info_metadata i) (info_data_dir i))
                  pre post info built [] e Hpre Hinfo).
Qed.

End InitErrors.

Lemma init_propagates_errors_witness :
  __init__ id demo_exists demo_joinpath demo_get_sessions (inr ["m1"; "m2"])
    (λ name (_ : unit) (_ : string),
       if String.eqb name "m2" then Raise (ValueError "no raw data") else Ok name)
    "/data" None
  = Raise (ValueError "no raw data").
Proof.
  apply (proj2 (init_propagates_errors id demo_exists demo_joinpath demo_get_sessions
                  (inr ["m1"; "m2"])
                  (λ name (_ : unit) (_ : string),
                     if String.eqb name "m2" then Raise (ValueError "no raw data")
                     else Ok name)
                  "/data" None (ValueError "no raw data") eq_refl
                  ltac:(discriminate))
           [mkInfo "m1" () "/data"] (mkInfo "m2" () "/data") [] ["m1"]).
  - reflexivity.
  - repeat constructor.
  - reflexivity.
Defined.
